(** * GlassesValidator: board pose, gaze projection, target offsets and
      fixation matching

    A shallow embedding of the processing scripts of the repository
    ([b_detectMarkers.py], [c_gazeToBoard.py], [e1_computeOffsetsToTargets.py],
    [e2_determineFixationIntervals.py]) and the properties of the
    specification that concern them.

    Conventions.
    - A Python/numpy float is a value of [float]: an exact rational, one of
      the two infinities, or not-a-number.  Rounding, overflow and the sign
      of zero are not modelled.
    - A Python [dict] whose iteration order matters is an association list
      in insertion order; a [dict] that is only looked up is a [gmap].
    - A Python exception is a value of [exn]; a computation that may raise
      returns [res A].
    - Calls into OpenCV, [math] and the external fixation classifier are not
      interpreted: they are either constructors that record their arguments
      or parameters of the function that calls them.  What is modelled of
      them is what the scripts depend on: the shape of the array that
      [cv2.undistortPoints] returns, which [estimateTransform] indexes. *)

From Stdlib Require Import ZArith QArith Qabs Qround Sorted Lia Bool.
From stdpp Require Import base option list strings gmap.

Set Default Proof Using "Type".

(** ** Exceptions *)

Inductive exn : Set :=
| IndexError
| ValueError
| RuntimeError.

Inductive res (A : Type) : Type :=
| Ok (a : A)
| Raise (e : exn).
Arguments Ok {A} a.
Arguments Raise {A} e.

#[global] Instance res_ret : MRet res := fun A a => Ok a.

#[global] Instance res_bind : MBind res := fun A B k r =>
  match r with
  | Ok a => k a
  | Raise e => Raise e
  end.

(** ** Floats *)

Module Float.

Inductive float : Set :=
| NaN
| NInf
| PInf
| Fin (q : Q).

Definition isnan (x : float) : bool :=
  match x with NaN => true | _ => false end.

(** The infinity of a sign; the sign [Eq] (of zero) has none. *)
Definition inf_of (c : comparison) : float :=
  match c with Lt => NInf | Gt => PInf | Eq => NaN end.

Definition sign (x : float) : comparison :=
  match x with
  | NaN => Eq
  | NInf => Lt
  | PInf => Gt
  | Fin q => (q ?= 0)%Q
  end.

Definition sign_mul (a b : comparison) : comparison :=
  match a, b with
  | Eq, _ | _, Eq => Eq
  | Lt, Lt | Gt, Gt => Gt
  | _, _ => Lt
  end.

Definition fopp (x : float) : float :=
  match x with
  | NaN => NaN
  | NInf => PInf
  | PInf => NInf
  | Fin q => Fin (- q)
  end.

Definition fadd (x y : float) : float :=
  match x, y with
  | NaN, _ | _, NaN => NaN
  | PInf, NInf | NInf, PInf => NaN
  | PInf, _ | _, PInf => PInf
  | NInf, _ | _, NInf => NInf
  | Fin a, Fin b => Fin (a + b)
  end.

Definition fsub (x y : float) : float := fadd x (fopp y).

Definition fmul (x y : float) : float :=
  match x, y with
  | NaN, _ | _, NaN => NaN
  | Fin a, Fin b => Fin (a * b)
  | _, _ => inf_of (sign_mul (sign x) (sign y))
  end.

(** numpy division: [x/0] is an infinity of the sign of [x], [0/0] and
    [inf/inf] are not-a-number; no exception is raised. *)
Definition fdiv (x y : float) : float :=
  match x, y with
  | NaN, _ | _, NaN => NaN
  | Fin a, Fin b =>
      if Qeq_bool b 0 then inf_of (a ?= 0)%Q else Fin (a / b)
  | Fin _, _ => Fin 0
  | _, Fin b =>
      if Qeq_bool b 0 then x else inf_of (sign_mul (sign x) (sign y))
  | _, _ => NaN
  end.

Definition fabs (x : float) : float :=
  match x with
  | NaN => NaN
  | NInf | PInf => PInf
  | Fin q => Fin (Qabs q)
  end.

(** [x < y]; every comparison with not-a-number is false. *)
Definition fltb (x y : float) : bool :=
  match x, y with
  | NaN, _ | _, NaN => false
  | _, NInf => false
  | NInf, _ => true
  | PInf, _ => false
  | Fin _, PInf => true
  | Fin a, Fin b => negb (Qle_bool b a)
  end.

(** [fle x y]: [x <= y], for floats that are numbers or infinities. *)
Definition fle (x y : float) : Prop := fltb y x = false.

(** The same float: the same rational, whatever fraction represents it, the
    same infinity, or not-a-number on both sides. *)
Definition feq (x y : float) : Prop :=
  match x, y with
  | NaN, NaN | NInf, NInf | PInf, PInf => True
  | Fin a, Fin b => (a == b)%Q
  | _, _ => False
  end.

End Float.
Export Float.

(** ** Python list indexing *)

(** [l[i]]: a negative index counts from the end, an index out of range
    raises [IndexError]. *)
Definition py_getitem {A} (l : list A) (i : Z) : res A :=
  let n := Z.of_nat (length l) in
  let j := if (i <? 0)%Z then (n + i)%Z else i in
  if (j <? 0)%Z then Raise IndexError
  else match l !! Z.to_nat j with
       | Some a => Ok a
       | None => Raise IndexError
       end.

(** ** Vectors and matrices of floats *)

Definition vec2 : Set := float * float.
Definition vec3 : Set := float * float * float.
(** A 3x3 matrix, by rows. *)
Definition mat3 : Set := vec3 * vec3 * vec3.

Definition nan2 : vec2 := (NaN, NaN).
Definition nan3 : vec3 := (NaN, NaN, NaN).
Definition zeros3 : vec3 := (Fin 0, Fin 0, Fin 0).

Definition vadd (a b : vec3) : vec3 :=
  let '(a0, a1, a2) := a in
  let '(b0, b1, b2) := b in
  (fadd a0 b0, fadd a1 b1, fadd a2 b2).

Definition vsub (a b : vec3) : vec3 :=
  let '(a0, a1, a2) := a in
  let '(b0, b1, b2) := b in
  (fsub a0 b0, fsub a1 b1, fsub a2 b2).

Definition vscale (t : float) (a : vec3) : vec3 :=
  let '(a0, a1, a2) := a in
  (fmul t a0, fmul t a1, fmul t a2).

Definition dot (a b : vec3) : float :=
  let '(a0, a1, a2) := a in
  let '(b0, b1, b2) := b in
  fadd (fadd (fmul a0 b0) (fmul a1 b1)) (fmul a2 b2).

(** [np.matmul(M, v)] for a 3x3 matrix. *)
Definition matvec (M : mat3) (v : vec3) : vec3 :=
  let '(r0, r1, r2) := M in
  (dot r0 v, dot r1 v, dot r2 v).

Definition transpose (M : mat3) : mat3 :=
  let '((a, b, c), (d, e, f), (g, h, i)) := M in
  ((a, d, g), (b, e, h), (c, f, i)).

Definition mopp (M : mat3) : mat3 :=
  let '((a, b, c), (d, e, f), (g, h, i)) := M in
  ((fopp a, fopp b, fopp c), (fopp d, fopp e, fopp f),
   (fopp g, fopp h, fopp i)).

(** [np.matmul(np.hstack((R, t)), [x, y, z, w])]: the 3x4 matrix [R | t]
    applied to a vector of four components. *)
Definition matvec34 (R : mat3) (t : vec3) (v : vec3) (w : float) : vec3 :=
  let '(r0, r1, r2) := R in
  let '(t0, t1, t2) := t in
  (fadd (dot r0 v) (fmul t0 w),
   fadd (dot r1 v) (fmul t1 w),
   fadd (dot r2 v) (fmul t2 w)).

(** Vectors of rationals, and their image among the floats. *)
Definition qvec3 : Set := Q * Q * Q.

Definition of_qvec3 (a : qvec3) : vec3 :=
  let '(a0, a1, a2) := a in (Fin a0, Fin a1, Fin a2).

Definition qadd3 (a b : qvec3) : qvec3 :=
  let '(a0, a1, a2) := a in
  let '(b0, b1, b2) := b in
  (a0 + b0, a1 + b1, a2 + b2)%Q.

Definition qsub3 (a b : qvec3) : qvec3 :=
  let '(a0, a1, a2) := a in
  let '(b0, b1, b2) := b in
  (a0 - b0, a1 - b1, a2 - b2)%Q.

Definition qscale3 (t : Q) (a : qvec3) : qvec3 :=
  let '(a0, a1, a2) := a in (t * a0, t * a1, t * a2)%Q.

Definition qdot3 (a b : qvec3) : Q :=
  let '(a0, a1, a2) := a in
  let '(b0, b1, b2) := b in
  (a0 * b0 + a1 * b1 + a2 * b2)%Q.

(** Matrices of rationals, by rows, and their image among the floats. *)
Definition qmat3 : Set := qvec3 * qvec3 * qvec3.

Definition of_qmat3 (M : qmat3) : mat3 :=
  let '(r0, r1, r2) := M in (of_qvec3 r0, of_qvec3 r1, of_qvec3 r2).

(** An array of three axes, as nested lists, has the shape [(n, m, k)]. *)
Definition shaped {A} (n m k : nat) (a : list (list (list A))) : Prop :=
  length a = n /\
  Forall (fun b => length b = m /\ Forall (fun r => length r = k) b) a.

(** ** [utils] *)

Module utils.

(** Modelled from the spec: [utils.intersect_plane_ray], which
    [c_gazeToBoard.py] calls but whose module is not among the sources at
    hand.  The spec gives the scalar
    [t = dot(normal, point - origin) / dot(normal, direction)], the
    intersection [origin + t * direction], and not-a-number when
    [dot(normal, direction)] is approximately zero; [epsilon] is the
    tolerance of "approximately". *)
Definition intersect_plane_ray (epsilon : Q)
    (planeNormal planePoint rayDirection rayPoint : vec3) : vec3 :=
  let ndotu := dot planeNormal rayDirection in
  if fltb (fabs ndotu) (Fin epsilon) then nan3
  else
    let t := fdiv (dot planeNormal (vsub planePoint rayPoint)) ndotu in
    vadd rayPoint (vscale t rayDirection).

End utils.

(** ** [b_detectMarkers.py] *)

Module b_detectMarkers.

(** An entry of the dictionary [known] that is an Aruco marker: its centre
    and its four corners on the board.  The dictionary is keyed here by the
    marker's number: its keys are ['%d' % id] for the markers and
    ['t%d' % id] for the gaze targets, and the lookups are all by
    ['%d' % id], which no target's key equals. *)
Record Marker : Set := {
  center : vec2;
  corners : list vec2
}.

(** What [cv2.aruco.detectMarkers] returns for a frame: [None] for [ids]
    when nothing is detected, else for each detected marker its number
    ([ids[i]]) and its corner pixels ([corners[i][0]]). *)
Definition detection : Set := option (list (Z * list vec2)).

(** [cameraMatrix] and [distCoeffs], as [distortPoint] reads them. *)
Record calibration : Set := {
  fx : float; fy : float; cx : float; cy : float;
  k1 : float; k2 : float; p1 : float; p2 : float; k3 : float
}.

(** [distortPoint]: the expressions of the source, in the arithmetic of
    [float].  The rounding of the doubles of the source is not modelled, so
    the value is the one of the source up to rounding; it is the target
    that the row of a frame holds. *)
Definition distortPoint (cal : calibration) (p : vec2) : vec2 :=
  let x := fdiv (fsub p.1 (cx cal)) (fx cal) in
  let y := fdiv (fsub p.2 (cy cal)) (fy cal) in
  let r2 := fadd (fmul x x) (fmul y y) in
  let radial :=
    fadd (fadd (fadd (Fin 1) (fmul (k1 cal) r2)) (fmul (fmul (k2 cal) r2) r2))
         (fmul (fmul (fmul (k3 cal) r2) r2) r2) in
  let dx := fmul x radial in
  let dy := fmul y radial in
  let dx := fadd dx (fadd (fmul (fmul (fmul (Fin 2) (p1 cal)) x) y)
                          (fmul (p2 cal) (fadd r2 (fmul (fmul (Fin 2) x) x)))) in
  let dy := fadd dy (fadd (fmul (p1 cal) (fadd r2 (fmul (fmul (Fin 2) y) y)))
                          (fmul (fmul (fmul (Fin 2) (p2 cal)) x) y)) in
  (fadd (fmul dx (fx cal)) (cx cal), fadd (fmul dy (fy cal)) (cy cal)).

(** [cv2.undistortPoints(x, cameraMatrix, distCoeffs, P=cameraMatrix)] for
    the array [x] of shape (1, n, 2) that holds the n corners of a detected
    marker.  OpenCV undistorts the points one by one, which [undistort]
    stands for, and returns them as an array of shape (n, 1, 2): one row of
    one point for each corner. *)
Definition cv2_undistortPoints (undistort : vec2 -> vec2) (x : list vec2) :
    list (list vec2) :=
  map (fun p => [undistort p]) x.

(** [detectedCorners[i][0]] in [estimateTransform], where [detectedCorners[i]]
    is the array that [cv2.undistortPoints] returned for the corners [x] of
    marker [i]: the first row of that array, which holds the first corner
    alone.  A detected marker has four corners; for an array without rows,
    where the source would raise [IndexError], no point is given. *)
Definition detectedCorners_0 (undistort : vec2 -> vec2) (x : list vec2) :
    list vec2 :=
  match cv2_undistortPoints undistort x with
  | row :: _ => row
  | [] => []
  end.

Section process.

(** OpenCV and numpy, with the calibration and the reference board fixed:
    the type of a homography matrix, [cv2.findHomography] from image points
    to board points, [cv2.aruco.estimatePoseBoard] on the detected corners
    and numbers, [np.linalg.inv] and [cv2.perspectiveTransform] of one
    point.  [undistortPoints x] stands for what [estimateTransform] reads of
    the undistorted corners of a marker of corners [x], which is
    [cv2.undistortPoints(x, ...)[0]]: [detectedCorners_0] above, for the
    OpenCV that returns an array of shape (n, 1, 2).
    [cv2.findHomography] is taken to return a matrix for the points it is
    given, and [np.linalg.inv] to invert it; OpenCV raises an exception
    when the image points and the board points differ in number, which is
    not followed here: the statements say which points it is handed. *)
Variable Hmat : Type.
Variable undistortPoints : list vec2 -> list vec2.
Variable findHomography : list vec2 -> list vec2 -> Hmat.
Variable estimatePoseBoard : list (list vec2) -> list Z -> Z * vec3 * vec3.
Variable inv : Hmat -> Hmat.
Variable perspectiveTransform : Hmat -> vec2 -> vec2.

(** The loop of [estimateTransform] that collects the matching corners in
    the image ([pts_src]) and on the board ([pts_dst]). *)
Fixpoint collect (known : gmap Z Marker) (detected : list (Z * list vec2))
    (pts_src pts_dst : list vec2) : list vec2 * list vec2 :=
  match detected with
  | [] => (pts_src, pts_dst)
  | (id, c) :: detected' =>
      match known !! id with
      | Some m => collect known detected' (pts_src ++ c) (pts_dst ++ corners m)
      | None => collect known detected' pts_src pts_dst
      end
  end.

(** [estimateTransform]: [None] stands for [(None, False)], [Some h] for
    [(h, True)]. *)
Definition estimateTransform (known : gmap Z Marker)
    (detected : list (Z * list vec2)) : option Hmat :=
  let '(pts_src, pts_dst) := collect known detected [] [] in
  if (length pts_src <? 4)%nat then None
  else Some (findHomography pts_src pts_dst).

(** The row of [transformations.tsv] for a frame. *)
Record row : Type := {
  frame_idx : Z;
  transformation : Hmat;
  poseNMarker : Z;
  poseRvec : vec3;
  poseTvec : vec3;
  centerTarget : vec2
}.

(** The body of the loop over the frames, from the detection to the
    writing of the row; drawing is left out. *)
Definition process_frame (cal : calibration) (known : gmap Z Marker)
    (center_target : vec2) (idx : Z) (detected : detection) : option row :=
  match detected with
  | None => None
  | Some det =>
      if (4 <=? length det)%nat then
        let cornersU := map (fun d => (d.1, undistortPoints d.2)) det in
        match estimateTransform known cornersU with
        | Some H =>
            let '(nMarkersUsed, Rvec, Tvec) :=
              estimatePoseBoard (map snd det) (map fst det) in
            let iH := inv H in
            let target := perspectiveTransform iH center_target in
            let target := distortPoint cal target in
            Some {| frame_idx := idx; transformation := H;
                    poseNMarker := nMarkersUsed;
                    poseRvec := Rvec; poseTvec := Tvec;
                    centerTarget := target |}
        | None => None
        end
      else None
  end.

End process.

(** The detected markers that are known, in order of detection and with
    repetitions. *)
Definition matched (known : gmap Z Marker) (detected : list (Z * list vec2)) :
    list (Z * list vec2) :=
  filter (fun d => is_Some (known !! d.1)) detected.

(** [known[key].corners], nothing for a marker that is not known. *)
Definition known_corners (known : gmap Z Marker) (id : Z) : list vec2 :=
  match known !! id with
  | Some m => corners m
  | None => []
  end.

(** [[tl, tr, br, bl]] in [getKnownMarkers]: the corners of the marker of
    centre [c], top left first and clockwise. *)
Definition marker_corners (c : vec2) (markerHalfSizeCm : float) : list vec2 :=
  [ (fadd c.1 (fopp markerHalfSizeCm), fadd c.2 markerHalfSizeCm);
    (fadd c.1 markerHalfSizeCm, fadd c.2 markerHalfSizeCm);
    (fadd c.1 markerHalfSizeCm, fadd c.2 (fopp markerHalfSizeCm));
    (fadd c.1 (fopp markerHalfSizeCm), fadd c.2 (fopp markerHalfSizeCm)) ].

(** The first loop of [getKnownMarkers], over the rows [(id, x, y)] of the
    marker file: the entries of the dictionary with the keys ['%d' % id].
    [cellSizeCm] and [markerHalfSizeCm] are computed from the setup with
    [math.tan].  The second loop adds the gaze targets under keys that start
    with [t] and touches none of these entries. *)
Definition getKnownMarkers (cellSizeCm markerHalfSizeCm : float)
    (rows : list (Z * vec2)) : gmap Z Marker :=
  foldl (fun markers row =>
           let c := (fmul cellSizeCm row.2.1, fmul cellSizeCm row.2.2) in
           <[row.1 := {| center := c;
                         corners := marker_corners c markerHalfSizeCm |}]> markers)
        ∅ rows.

Section video.

Variable Hmat : Type.
Variable undistortPoints : list vec2 -> list vec2.
Variable findHomography : list vec2 -> list vec2 -> Hmat.
Variable estimatePoseBoard : list (list vec2) -> list Z -> Z * vec3 * vec3.
Variable inv : Hmat -> Hmat.
Variable perspectiveTransform : Hmat -> vec2 -> vec2.

(** The loop [while True:] of [process] from frame [frame_idx] on: the rows
    written to [transformations.tsv].  [frames] holds, for each frame that
    [cap.read()] delivers, what is detected in it and whether the key [q]
    is down when [cv2.waitKey] is called at the end of the iteration. *)
Fixpoint process_frames (cal : calibration) (known : gmap Z Marker)
    (center_target : vec2) (frame_idx : Z) (frames : list (detection * bool)) :
    list (row Hmat) :=
  match frames with
  | [] => []
  | (detected, q) :: frames' =>
      let written :=
        match process_frame Hmat undistortPoints findHomography
                estimatePoseBoard inv perspectiveTransform
                cal known center_target frame_idx detected with
        | Some r => [r]
        | None => []
        end in
      if q then written
      else written ++ process_frames cal known center_target (frame_idx + 1) frames'
  end.

End video.

End b_detectMarkers.

(** ** [c_gazeToBoard.py]: frame index to timestamp *)

Module Idx2Timestamp.

(** What [get] leaves behind: the warnings written to [stderr] (each with
    the two numbers it prints) and the value returned or exception raised. *)
Record outcome := {
  stderr : list (Z * Z);
  result : res Q
}.

Definition get (timestamps : list Q) (idx : Z) : outcome :=
  let n := Z.of_nat (length timestamps) in
  if (idx <? n)%Z then
    {| stderr := []; result := py_getitem timestamps idx |}
  else
    {| stderr := [(idx, n)]; result := py_getitem timestamps (-1) |}.

End Idx2Timestamp.

(** ** [c_gazeToBoard.py]: gaze to board *)

Module c_gazeToBoard.

(** One row of [gazeData.tsv]. *)
Record Gaze : Set := {
  ts : float;
  x : float;
  y : float;
  world3D : vec3;
  lGazeVec : vec3;
  lGazeOrigin : vec3;
  rGazeVec : vec3;
  rGazeOrigin : vec3
}.

(** The local variables that the loop over the two eyes updates: the row
    being built, the list [boardPosCam] and the dictionary [offsets]. *)
Record locals : Type := {
  writeDat : list float;
  boardPosCam : list vec3;
  offsets : gmap string vec2
}.

Definition list3 (v : vec3) : list float := [v.1.1; v.1.2; v.2].
Definition list2 (v : vec2) : list float := [v.1; v.2].

(** [[(x+y)/2 for x,y in zip(a, b)]] for two lists of two *)
Definition mean2 (a b : vec2) : vec2 :=
  (fdiv (fadd a.1 b.1) (Fin 2), fdiv (fadd a.2 b.2) (Fin 2)).

(** [if 'left' in offsets and 'right' in offsets:
      offsets['average'] = [(x+y)/2 for x,y in zip(offsets['left'],offsets['right'])]] *)
Definition make_average (st : locals) : locals :=
  match offsets st !! "left", offsets st !! "right" with
  | Some l, Some r =>
      {| writeDat := writeDat st;
         boardPosCam := boardPosCam st;
         offsets := <[ "average" := mean2 l r ]> (offsets st) |}
  | _, _ => st
  end.

Section process.

(** [cv2.Rodrigues], rotation vector to rotation matrix; [np.sqrt]; and the
    tolerance that [utils.intersect_plane_ray] uses when the caller passes
    none. *)
Variable Rodrigues : vec3 -> mat3.
Variable np_sqrt : float -> float.
Variable epsilon : Q.

(** Camera extrinsics read from [calibration.xml]: rotation vector and
    position. *)
Variable cameraRotation : vec3.
Variable cameraPosition : vec3.

(** [g3D /= np.sqrt((g3D**2).sum())] *)
Definition normalize (g3D : vec3) : vec3 :=
  let '(a, b, c) := g3D in
  let n := np_sqrt (fadd (fadd (fmul a a) (fmul b b)) (fmul c c)) in
  (fdiv a n, fdiv b n, fdiv c n).

(** The body of the loop over the eyes: [gVec], [gOri] and [eye] are the
    loop variables. *)
Definition eye_step (boardNormal boardPoint : vec3) (RBoardT : mat3) (tInv : vec3)
    (RCam : mat3) (st : locals) (it : vec3 * vec3 * string) : locals :=
  let '(gVec, gOri, eye) := it in
  let gVec := matvec34 RCam cameraPosition gVec (Fin 1) in
  let gOri := matvec34 RCam cameraPosition gOri (Fin 1) in
  let w := writeDat st ++ list3 gOri in
  let gBoard := utils.intersect_plane_ray epsilon boardNormal boardPoint gVec gOri in
  let w := w ++ list3 gBoard in
  if negb (isnan gBoard.1.1) then
    let xyz := matvec34 RBoardT tInv gBoard (Fin 1) in
    {| writeDat := w ++ [xyz.1.1; xyz.1.2];
       boardPosCam := boardPosCam st ++ [gBoard];
       offsets := <[eye := (xyz.1.1, xyz.1.2)]> (offsets st) |}
  else
    {| writeDat := w ++ [NaN; NaN];
       boardPosCam := boardPosCam st ++ [gBoard];
       offsets := offsets st |}.

(** The body of [if frame_idx in rVec:] for one gaze sample, up to the
    writing of the row: the row and the dictionary [offsets] at the end.
    Drawing is left out. *)
Definition gaze_on_board (frame_idx : Z) (frame_ts : float) (rvec tvec : vec3)
    (gaze : Gaze) : locals :=
  let RBoard := Rodrigues rvec in
  let boardNormal := matvec RBoard (Fin 0, Fin 0, Fin 1) in
  let RBoardT := transpose RBoard in
  let tInv := matvec (mopp RBoardT) tvec in
  let boardPoint := matvec34 RBoard tvec (Fin 0, Fin 0, Fin 0) (Fin 1) in
  let w := [Fin (inject_Z frame_idx); frame_ts; ts gaze]
             ++ list3 boardPoint ++ list3 boardNormal in
  let RCam := Rodrigues cameraRotation in
  let g3D := normalize (matvec RCam (world3D gaze)) in
  let g3Board := utils.intersect_plane_ray epsilon boardNormal boardPoint g3D zeros3 in
  let xyz := matvec34 RBoardT tInv g3Board (Fin 1) in
  let st := {| writeDat := w ++ list3 g3Board ++ [xyz.1.1; xyz.1.2];
               boardPosCam := [];
               offsets := {[ "3D_gaze_point" := (xyz.1.1, xyz.1.2) ]} |} in
  let st := foldl (eye_step boardNormal boardPoint RBoardT tInv RCam) st
              [(lGazeVec gaze, lGazeOrigin gaze, "left");
               (rGazeVec gaze, rGazeOrigin gaze, "right")] in
  make_average st.

(** What one eye contributes, written apart for the statements below: the
    intersection of its gaze ray with the board in camera space, the same
    point in board space, and its eight columns of the row. *)
Definition eye_gBoard (rvec tvec gVec gOri : vec3) : vec3 :=
  let RBoard := Rodrigues rvec in
  let RCam := Rodrigues cameraRotation in
  utils.intersect_plane_ray epsilon
    (matvec RBoard (Fin 0, Fin 0, Fin 1))
    (matvec34 RBoard tvec (Fin 0, Fin 0, Fin 0) (Fin 1))
    (matvec34 RCam cameraPosition gVec (Fin 1))
    (matvec34 RCam cameraPosition gOri (Fin 1)).

Definition to_board (rvec tvec p : vec3) : vec2 :=
  let RBoardT := transpose (Rodrigues rvec) in
  let xyz := matvec34 RBoardT (matvec (mopp RBoardT) tvec) p (Fin 1) in
  (xyz.1.1, xyz.1.2).

Definition eye_columns (rvec tvec gVec gOri : vec3) : list float :=
  let gBoard := eye_gBoard rvec tvec gVec gOri in
  list3 (matvec34 (Rodrigues cameraRotation) cameraPosition gOri (Fin 1))
    ++ list3 gBoard
    ++ (if isnan gBoard.1.1 then [NaN; NaN]
        else list2 (to_board rvec tvec gBoard)).

(** The fourteen columns before those of the eyes: frame, time stamps, the
    plane, and the 3D gaze point as a ray from the camera. *)
Definition ray_gBoard (rvec tvec : vec3) (gaze : Gaze) : vec3 :=
  let RBoard := Rodrigues rvec in
  utils.intersect_plane_ray epsilon
    (matvec RBoard (Fin 0, Fin 0, Fin 1))
    (matvec34 RBoard tvec (Fin 0, Fin 0, Fin 0) (Fin 1))
    (normalize (matvec (Rodrigues cameraRotation) (world3D gaze)))
    zeros3.

Definition ray_columns (frame_idx : Z) (frame_ts : float) (rvec tvec : vec3)
    (gaze : Gaze) : list float :=
  let RBoard := Rodrigues rvec in
  [Fin (inject_Z frame_idx); frame_ts; ts gaze]
    ++ list3 (matvec34 RBoard tvec (Fin 0, Fin 0, Fin 0) (Fin 1))
    ++ list3 (matvec RBoard (Fin 0, Fin 0, Fin 1))
    ++ list3 (ray_gBoard rvec tvec gaze)
    ++ list2 (to_board rvec tvec (ray_gBoard rvec tvec gaze)).

(** The dictionary [offsets] once the two eyes are done, before the
    average. *)
Definition eyes_offsets (rvec tvec : vec3) (gaze : Gaze) : gmap string vec2 :=
  let l := eye_gBoard rvec tvec (lGazeVec gaze) (lGazeOrigin gaze) in
  let r := eye_gBoard rvec tvec (rGazeVec gaze) (rGazeOrigin gaze) in
  let o := {[ "3D_gaze_point" := to_board rvec tvec (ray_gBoard rvec tvec gaze) ]} in
  let o := if isnan l.1.1 then o else <[ "left" := to_board rvec tvec l ]> o in
  if isnan r.1.1 then o else <[ "right" := to_board rvec tvec r ]> o.

(** The body of the loop over the samples of one frame: a row is written
    only when the frame has a pose.  [pose] holds [rVec] and [tVec], which
    one loop fills under the same keys. *)
Definition process_sample (pose : gmap Z (vec3 * vec3)) (frame_idx : Z)
    (frame_ts : float) (gaze : Gaze) : option (list float) :=
  match pose !! frame_idx with
  | Some (rvec, tvec) =>
      Some (writeDat (gaze_on_board frame_idx frame_ts rvec tvec gaze))
  | None => None
  end.

End process.

(** The sample with the data of one eye missing. *)
Definition without_left (gaze : Gaze) : Gaze :=
  {| ts := ts gaze; x := x gaze; y := y gaze; world3D := world3D gaze;
     lGazeVec := nan3; lGazeOrigin := nan3;
     rGazeVec := rGazeVec gaze; rGazeOrigin := rGazeOrigin gaze |}.

Definition without_right (gaze : Gaze) : Gaze :=
  {| ts := ts gaze; x := x gaze; y := y gaze; world3D := world3D gaze;
     lGazeVec := lGazeVec gaze; lGazeOrigin := lGazeOrigin gaze;
     rGazeVec := nan3; rGazeOrigin := nan3 |}.

(** The body of the loop that reads [gazeData.tsv], for the entry of frame
    [entry.1]: the dictionary [gazes] and [maxFrameIdx]. *)
Definition add_gaze (st : gmap Z (list Gaze) * Z) (entry : Z * Gaze) :
    gmap Z (list Gaze) * Z :=
  let '(gazes, maxFrameIdx) := st in
  let '(frame_idx, gaze) := entry in
  (match gazes !! frame_idx with
   | Some l => <[frame_idx := l ++ [gaze]]> gazes
   | None => <[frame_idx := [gaze]]> gazes
   end,
   Z.max maxFrameIdx frame_idx).

Definition read_gazes (entries : list (Z * Gaze)) : gmap Z (list Gaze) * Z :=
  foldl add_gaze (∅, 0%Z) entries.

(** The loop that reads [boardPose.tsv], over its rows (frame, rotation
    vector, translation vector): the dictionaries [rVec] and [tVec]. *)
Definition read_pose (rows : list (Z * vec3 * vec3)) : gmap Z vec3 * gmap Z vec3 :=
  foldl (fun '(rVec, tVec) '(frame_idx, r, t) =>
           (<[frame_idx := r]> rVec, <[frame_idx := t]> tVec))
        (∅, ∅) rows.

(** The key that [cv2.waitKey] reports at the end of a frame. *)
Inductive key : Set :=
| key_q
| key_n
| key_s
| key_other.

(** What a run of the loop over the frames leaves behind: the rows written
    to [gazeWorldPos.tsv], the warnings on [stderr], and [stopAllProcessing]
    as returned, or the exception raised. *)
Record run : Type := {
  written : list (list float);
  warnings : list (Z * Z);
  returned : res bool
}.

(** [cap.read()] at the top of an iteration.  [video] is [None] when
    [gShowVisualization] is off and nothing is read; else it holds, for
    each frame that the video still delivers, the key reported at the end
    of that frame, and [ret] is false when it is empty. *)
Definition cap_read (video : option (list key)) :
    option (option key * option (list key)) :=
  match video with
  | None => Some (None, None)
  | Some [] => None
  | Some (k :: keys) => Some (Some k, Some keys)
  end.

Section frames.

Variable Rodrigues : vec3 -> mat3.
Variable np_sqrt : float -> float.
Variable epsilon : Q.
Variable cameraRotation : vec3.
Variable cameraPosition : vec3.

(** The loop [for frame_idx in range(maxFrameIdx+1):] over the frames that
    remain.  Drawing and [cv2.projectPoints], which only feed the drawing,
    are left out. *)
Fixpoint process_frames (timestamps : list Q) (gazes : gmap Z (list Gaze))
    (pose : gmap Z (vec3 * vec3)) (video : option (list key))
    (frames : list Z) : run :=
  match frames with
  | [] => {| written := []; warnings := []; returned := Ok false |}
  | frame_idx :: frames' =>
      match cap_read video with
      | None => {| written := []; warnings := []; returned := Ok false |}
      | Some (pressed, video') =>
          let o := Idx2Timestamp.get timestamps frame_idx in
          match Idx2Timestamp.result o with
          | Raise e =>
              {| written := []; warnings := Idx2Timestamp.stderr o;
                 returned := Raise e |}
          | Ok frame_ts =>
              let rows :=
                omap (process_sample Rodrigues np_sqrt epsilon cameraRotation
                        cameraPosition pose frame_idx (Fin frame_ts))
                     (default [] (gazes !! frame_idx)) in
              match pressed with
              | Some key_q =>
                  {| written := rows; warnings := Idx2Timestamp.stderr o;
                     returned := Ok true |}
              | Some key_n =>
                  {| written := rows; warnings := Idx2Timestamp.stderr o;
                     returned := Ok false |}
              | _ =>
                  let r := process_frames timestamps gazes pose video' frames' in
                  {| written := rows ++ written r;
                     warnings := Idx2Timestamp.stderr o ++ warnings r;
                     returned := returned r |}
              end
          end
      end
  end.

(** [process] from the reading of the gaze data on: [entries] are the rows
    of [gazeData.tsv] and [pose_rows] those of [boardPose.tsv]. *)
Definition process (timestamps : list Q) (entries : list (Z * Gaze))
    (pose_rows : list (Z * vec3 * vec3)) (video : option (list key)) : run :=
  let '(gazes, maxFrameIdx) := read_gazes entries in
  let '(rVec, tVec) := read_pose pose_rows in
  process_frames timestamps gazes (map_zip rVec tVec) video
    (seqZ 0 (maxFrameIdx + 1)).

End frames.

(** For the statements below: the samples of frame [k] in the order of
    [gazeData.tsv], and the time stamp that the loop has for a frame. *)
Definition samples_of_frame (entries : list (Z * Gaze)) (k : Z) : list Gaze :=
  map snd (filter (fun e => e.1 = k) entries).

Definition frame_ts_of (timestamps : list Q) (frame_idx : Z) : float :=
  match Idx2Timestamp.result (Idx2Timestamp.get timestamps frame_idx) with
  | Ok t => Fin t
  | Raise _ => NaN
  end.

End c_gazeToBoard.

(** ** Gaze on the board, per sample *)

(** One row of [gazeWorldPos.tsv] as the later scripts read it back
    ([utils.GazeWorld]; the class itself is not among the sources at hand,
    the record has the fields that [e1] and [e2] read). *)
Record GazeWorld : Set := {
  ts : float;
  lGazeOrigin : vec3;
  rGazeOrigin : vec3;
  lGaze3D : vec3;
  rGaze3D : vec3;
  lGaze2D : vec2;
  rGaze2D : vec2;
  gaze3DRay : vec3;
  gaze2DRay : vec2;
  gaze3DHomography : vec3;
  gaze2DHomography : vec2
}.

(** The dictionary [gazeWorld]: frame index to the samples of that frame, in
    insertion order. *)
Definition gazeWorld_t : Set := list (Z * list GazeWorld).

(** [{k:v for (k,v) in gazeWorld.items() if k>=lo and k<=hi}] *)
Definition gazeWorldToAnal (gazeWorld : gazeWorld_t) (lo hi : Z) : gazeWorld_t :=
  filter (fun kv => (lo <= kv.1)%Z /\ (kv.1 <= hi)%Z) gazeWorld.

(** [[s for v in gazeWorld.values() for s in v]] *)
Definition samples (gazeWorld : gazeWorld_t) : list GazeWorld :=
  flat_map snd gazeWorld.

(** [[k for k,v in gazeWorld.items() for s in v]] *)
Definition frameIdxs (gazeWorld : gazeWorld_t) : list Z :=
  flat_map (fun kv => map (fun _ => kv.1) kv.2) gazeWorld.

(** ** [e1_computeOffsetsToTargets.py] *)

Module e1.

Section process.

(** [cv2.Rodrigues], [utils.angle_between] and [math.atan2], [math.cos],
    [math.sin]. *)
Variable Rodrigues : vec3 -> mat3.
Variable angle_between : vec3 -> vec3 -> float.
Variable atan2 : float -> float -> float.
Variable cos : float -> float.
Variable sin : float -> float.

(** The chain [if e==0: ... elif e==3: ...]: origin, gaze point in camera
    space and gaze point on the board for method [e] of [range(4)]. *)
Definition method (e : nat) (s : GazeWorld) : vec3 * vec3 * vec2 :=
  match e with
  | 0 => (lGazeOrigin s, lGaze3D s, lGaze2D s)
  | 1 => (rGazeOrigin s, rGaze3D s, rGaze2D s)
  | 2 => (zeros3, gaze3DRay s, gaze2DRay s)
  | _ => (zeros3, gaze3DHomography s, gaze2DHomography s)
  end.

(** The body of the loop over the targets. *)
Definition target_offset (RBoard : mat3) (tvec : vec3)
    (ori gaze : vec3) (gazeBoard : vec2) (t : vec2) : vec2 :=
  let target := matvec34 RBoard tvec (t.1, t.2, Fin 0) (Fin 1) in
  let vGaze := vsub gaze ori in
  let vTarget := vsub target ori in
  let ang2D := angle_between vTarget vGaze in
  let onBoardAngle := atan2 (fsub gazeBoard.2 t.2) (fsub gazeBoard.1 t.1) in
  (fmul ang2D (cos onBoardAngle), fmul ang2D (sin onBoardAngle)).

(** The body of the loop over the samples: the block [offset[s,:,:,:]],
    indexed by method and by target.  [pose] holds [rVec] and [tVec], which
    have the same keys. *)
Definition sample_offset (pose : gmap Z (vec3 * vec3))
    (targets : list (Z * vec2)) (k : Z) (s : GazeWorld) : list (list vec2) :=
  match pose !! k with
  | None => replicate 4 (replicate (length targets) nan2)
  | Some (rvec, tvec) =>
      let RBoard := Rodrigues rvec in
      map (fun e =>
             let '(ori, gaze, gazeBoard) := method e s in
             map (fun t => target_offset RBoard tvec ori gaze gazeBoard t.2)
                 targets)
          (seq 0 4)
  end.

(** The array [offset] of one interval, indexed by sample, method and
    target; [lo] and [hi] are the interval's first and last frame. *)
Definition offset (pose : gmap Z (vec3 * vec3)) (targets : list (Z * vec2))
    (gazeWorld : gazeWorld_t) (lo hi : Z) : list (list (list vec2)) :=
  let toAnal := gazeWorldToAnal gazeWorld lo hi in
  zip_with (sample_offset pose targets) (frameIdxs toAnal) (samples toAnal).

End process.

(** [offset[s,e,ti,:]] *)
Definition entry (offset : list (list (list vec2))) (s e ti : nat) : option vec2 :=
  block ← offset !! s; per_target ← block !! e; per_target !! ti.

(** The offset as the specification words it: the angle at [origin] between
    the target and the gaze point, split along the bearing on the board from
    the target to the gaze point. *)
Definition spec_offset (angle_between : vec3 -> vec3 -> float)
    (atan2 : float -> float -> float) (cos sin : float -> float)
    (origin target gazePoint : vec3) (gazeBoard targetBoard : vec2) : vec2 :=
  let angle := angle_between (vsub target origin) (vsub gazePoint origin) in
  let bearing := atan2 (fsub gazeBoard.2 targetBoard.2)
                       (fsub gazeBoard.1 targetBoard.1) in
  (fmul angle (cos bearing), fmul angle (sin bearing)).

(** The origin that the specification gives each method: the eye for the two
    eyes, the zero vector for the two methods centred on the camera. *)
Definition spec_origin (e : nat) (s : GazeWorld) : vec3 :=
  match e with
  | 0 => lGazeOrigin s
  | 1 => rGazeOrigin s
  | _ => zeros3
  end.

(** [np.meshgrid(x0, x1, x2)] with the default indexing ['xy']: three arrays
    of shape [(len(x1), len(x0), len(x2))], the first constant along the
    first and the last axis, the second along the last two, the third along
    the first two. *)
Definition meshgrid {A} (x0 x1 x2 : list A) :
    list (list (list A)) * list (list (list A)) * list (list (list A)) :=
  (map (fun _ => map (fun a => map (fun _ => a) x2) x0) x1,
   map (fun b => map (fun _ => map (fun _ => b) x2) x0) x1,
   map (fun _ => map (fun _ => x2) x0) x1).

(** [np.stack((g0, g1, g2), axis=-1)] for three arrays of three axes. *)
Definition stack_last {A} (g0 g1 g2 : list (list (list A))) :
    list (list (list (A * A * A))) :=
  zip_with (zip_with (zip_with (fun ab c => (ab.1, ab.2, c))))
           (zip_with (zip_with (zip_with pair)) g0 g1) g2.

(** [a.reshape(-1, k)] for an array whose last axis has length [k] and is
    the entry type here: the entries in row-major order. *)
Definition reshape_rows {A} (a : list (list (list A))) : list A :=
  concat (concat a).

(** [cartesian_product], called with three arrays. *)
Definition cartesian_product {A} (x0 x1 x2 : list A) : list (A * A * A) :=
  let '(g0, g1, g2) := meshgrid x0 x1 x2 in
  reshape_rows (stack_last g0 g1 g2).

(** The list [map] of [process]: the name of method [e]. *)
Definition eye_names : list string := ["left"; "right"; "ray"; "homography"].

(** A row of [gazeTargetOffset.tsv]. *)
Record output_row : Set := {
  timestamp : float;
  marker_interval : Z;
  eye : string;
  target : Z;
  offset_xy : vec2
}.

Section table.

Variable Rodrigues : vec3 -> mat3.
Variable angle_between : vec3 -> vec3 -> float.
Variable atan2 : float -> float -> float.
Variable cos : float -> float.
Variable sin : float -> float.

(** The body of the loop over the intervals, for interval [ival] of first
    and last frame [lo] and [hi]: the rows appended to
    [gazeTargetOffset.tsv].  [np.vstack] of an empty list raises
    [ValueError]; with no target, [dat] is an empty array of floats, which
    cannot index [ts]. *)
Definition process_interval (pose : gmap Z (vec3 * vec3))
    (targets : list (Z * vec2)) (gazeWorld : gazeWorld_t) (lo hi : Z)
    (ival : nat) : res (list output_row) :=
  let ss := samples (gazeWorldToAnal gazeWorld lo hi) in
  match ss with
  | [] => Raise ValueError
  | _ =>
      let off := offset Rodrigues angle_between atan2 cos sin
                   pose targets gazeWorld lo hi in
      match targets with
      | [] => Raise IndexError
      | _ =>
          let dat := cartesian_product (seqZ 0 4)
                       (seqZ 0 (Z.of_nat (length off))) (map fst targets) in
          mapM (M := res)
               (fun '((e, s, t), o) =>
                  tstamp ← py_getitem (map ts ss) s;
                  name ← py_getitem eye_names e;
                  Ok {| timestamp := tstamp;
                        marker_interval := Z.of_nat ival + 1;
                        eye := name; target := t; offset_xy := o |})
               (zip dat (reshape_rows off))
      end
  end.

End table.

End e1.

(** ** [e2_determineFixationIntervals.py] *)

Module e2.

(** [np.any(np.logical_not(np.isnan([s.f for v in gazeWorld.values() for s in v])))] *)
Definition qHas (f : GazeWorld -> vec2) (gazeWorld : gazeWorld_t) : bool :=
  existsb (fun s => negb (isnan (f s).1) || negb (isnan (f s).2))
          (samples gazeWorld).

(** The dictionary [data] handed to the fixation classifier: the time
    stamps and either the two eyes' positions or one "average" position. *)
Inductive data : Set :=
| LeftRight (time L_X L_Y R_X R_Y : list float)
| Average (time average_X average_Y : list float).

(** The body of the loop over intervals, up to the call of the classifier:
    [lo] and [hi] are [analyzeFrames[ival*2]] and [analyzeFrames[ival*2+1]].
    The four flags are computed once, over the whole recording. *)
Definition collect_data (gazeWorld : gazeWorld_t) (lo hi : Z) : res data :=
  let qHasLeft := qHas lGaze2D gazeWorld in
  let qHasRight := qHas rGaze2D gazeWorld in
  let qHasRay := qHas gaze2DRay gazeWorld in
  let qHasHomography := qHas gaze2DHomography gazeWorld in
  let ss := samples (gazeWorldToAnal gazeWorld lo hi) in
  let time := map ts ss in
  if qHasLeft && qHasRight then
    Ok (LeftRight time
          (map (fun s => (lGaze2D s).1) ss) (map (fun s => (lGaze2D s).2) ss)
          (map (fun s => (rGaze2D s).1) ss) (map (fun s => (rGaze2D s).2) ss))
  else if qHasRay then
    Ok (Average time
          (map (fun s => (gaze2DRay s).1) ss) (map (fun s => (gaze2DRay s).2) ss))
  else if qHasHomography then
    Ok (Average time
          (map (fun s => (gaze2DHomography s).1) ss)
          (map (fun s => (gaze2DHomography s).2) ss))
  else Raise RuntimeError.

(** One fixation returned by the classifier: entry [i] of each of the arrays
    [fix['xpos']], [fix['ypos']], [fix['dur']], [fix['startT']],
    [fix['endT']].  The classifier averages samples that are not missing, so
    the values are finite. *)
Record fixation : Set := {
  xpos : Q;
  ypos : Q;
  dur : Q;
  startT : Q;
  endT : Q
}.

Definition minDur : Q := 150.

(** [np.argmin]: the index of the first not-a-number if there is one, else
    of the first occurrence of the minimum; [ValueError] on an empty array. *)
Fixpoint argmin_from (best : float) (ibest i : nat) (l : list float) : nat :=
  match l with
  | [] => ibest
  | x :: l' =>
      if isnan best then ibest
      else if isnan x || fltb x best then argmin_from x i (S i) l'
      else argmin_from best ibest (S i) l'
  end.

Definition argmin (l : list float) : res nat :=
  match l with
  | [] => Raise ValueError
  | x :: l' => Ok (argmin_from x 0 1 l')
  end.

(** [dist[mask] = math.inf] *)
Definition set_inf (mask : list bool) (dist : list float) : list float :=
  zip_with (fun (m : bool) d => if m then PInf else d) mask dist.

Section matcher.

(** [np.hypot] on finite arguments. *)
Variable hypot : Q -> Q -> Q.

(** The arrays [used] and [selected]; the dictionary of arrays [fix] is
    [fix_] below. *)
Record state : Set := {
  used : list bool;
  selected : list Z
}.

(** [np.hypot(fix['xpos']-targets[t][0], fix['ypos']-targets[t][1])] *)
Definition distances (fix_ : list fixation) (target : Q * Q) : list float :=
  map (fun f => Fin (hypot (xpos f - target.1) (ypos f - target.2))) fix_.

(** The body of the loop over the targets, for the target of index [i]. *)
Definition select_one (fix_ : list fixation) (st : state) (i : nat)
    (target : Q * Q) : res state :=
  if forallb id (used st) then Ok st
  else
    let dist := distances fix_ target in
    let dist := set_inf (used st) dist in
    let dist := set_inf (map (fun f => negb (Qle_bool minDur (dur f))) fix_) dist in
    iFix ← argmin dist;
    Ok {| selected := <[i := Z.of_nat iFix]> (selected st);
          used := <[iFix := true]> (used st) |}.

(** [for i,t in zip(range(len(targets)),targets)], from index [i] on. *)
Fixpoint select_from (fix_ : list fixation) (st : state) (i : nat)
    (targets : list (Z * (Q * Q))) : res state :=
  match targets with
  | [] => Ok st
  | (_, c) :: targets' =>
      st' ← select_one fix_ st i c;
      select_from fix_ st' (S i) targets'
  end.

(** The whole selection: [selected[i]] is the index of the fixation of
    target [i], or [-999]. *)
Definition select_fixations (fix_ : list fixation)
    (targets : list (Z * (Q * Q))) : res (list Z) :=
  st ← select_from fix_
         {| used := replicate (length fix_) false;
            selected := replicate (length targets) (-999)%Z |}
         0 targets;
  Ok (selected st).

(** For the statements below: the distance that the loop compares, for a
    fixation and a target, and the array [dist] once the used and the too
    short fixations are set to infinity. *)
Definition dist_to (f : fixation) (target : Q * Q) : Q :=
  hypot (xpos f - target.1) (ypos f - target.2).

Definition masked (fix_ : list fixation) (used : list bool) (target : Q * Q) :
    list float :=
  set_inf (map (fun f => negb (Qle_bool minDur (dur f))) fix_)
    (set_inf used (distances fix_ target)).

End matcher.

(** For the statements below.  A fixation is long enough when its duration
    is not below [minDur]; fixation [j] is eligible when it is long enough
    and not used. *)
Definition long_enough (f : fixation) : bool := Qle_bool minDur (dur f).

Definition eligible (fix_ : list fixation) (used : list bool) (j : nat) : Prop :=
  used !! j = Some false /\
  exists f, fix_ !! j = Some f /\ long_enough f = true.

(** The number of [true] in [used]. *)
Definition n_used (used : list bool) : nat := length (filter (fun u => u = true) used).

(** The number of fixations that are long enough. *)
Definition n_long (fix_ : list fixation) : nat :=
  length (filter (fun f => long_enough f = true) fix_).

(** What holds of [used] and [selected] when the first [i] of [N] targets
    have each been given an eligible fixation: the used fixations are long
    enough and are [i], and the first [i] targets have fixations that are
    used and differ, and the other targets have none. *)
Record assigned_so_far (fix_ : list fixation) (N : nat) (st : state) (i : nat) :
    Prop := {
  asf_used_length : length (used st) = length fix_;
  asf_selected_length : length (selected st) = N;
  asf_used_long : forall j, used st !! j = Some true ->
    exists f, fix_ !! j = Some f /\ long_enough f = true;
  asf_n_used : n_used (used st) = i;
  asf_assigned : forall i', (i' < i)%nat ->
    exists j, selected st !! i' = Some (Z.of_nat j) /\ used st !! j = Some true;
  asf_injective : forall i1 i2 z, (i1 < i)%nat -> (i2 < i)%nat ->
    selected st !! i1 = Some z -> selected st !! i2 = Some z -> i1 = i2;
  asf_rest : forall i', (i <= i' < N)%nat -> selected st !! i' = Some (-999)%Z
}.

(** What holds of [used] and [selected] after the first [i] of [N] targets,
    whatever the fixations are: the first [k] targets have the index of a
    fixation and the others have none, no target was skipped unless every
    fixation was used, and at most [k] fixations are used. *)
Record prefix_assigned (fix_ : list fixation) (N : nat) (st : state)
    (i k : nat) : Prop := {
  pa_used_length : length (used st) = length fix_;
  pa_selected_length : length (selected st) = N;
  pa_le : (k <= i)%nat;
  pa_assigned : forall i', (i' < k)%nat ->
    exists j, selected st !! i' = Some (Z.of_nat j) /\ (j < length fix_)%nat;
  pa_rest : forall i', (k <= i' < N)%nat -> selected st !! i' = Some (-999)%Z;
  pa_all_used : (k < i)%nat -> forallb id (used st) = true;
  pa_n_used : (n_used (used st) <= k)%nat
}.

(** Target [i], at [target], has in [sel] a fixation that is long enough and
    that is as near to it as any fixation that is long enough and that no
    target before [i] has. *)
Definition nearest_unclaimed (hypot : Q -> Q -> Q) (fix_ : list fixation)
    (sel : list Z) (i : nat) (target : Q * Q) : Prop :=
  exists j f,
    sel !! i = Some (Z.of_nat j) /\ fix_ !! j = Some f /\
    long_enough f = true /\
    forall j' f', fix_ !! j' = Some f' -> long_enough f' = true ->
      (forall i', (i' < i)%nat -> sel !! i' <> Some (Z.of_nat j')) ->
      (dist_to hypot f target <= dist_to hypot f' target)%Q.

(** The rows of [analysisInterval.tsv] for one interval: target, start and
    end time stamp of its fixation, for the targets that have one. *)
Definition rows (fix_ : list fixation) (targets : list (Z * (Q * Q)))
    (selected : list Z) : res (list (Z * Q * Q)) :=
  mapM (M := res) (fun '(t, sel) =>
          f ← py_getitem fix_ sel; Ok (t.1, startT f, endT f))
       (filter (fun '(_, sel) => sel <> (-999)%Z) (zip targets selected)).

(** [np.diff] *)
Definition np_diff (ts : list float) : list float :=
  zip_with fsub (tail ts) ts.

(** [np.mean]; of an empty array it is [0/0], not-a-number. *)
Definition np_mean (l : list float) : float :=
  fdiv (foldl fadd (Fin 0) l) (Fin (inject_Z (Z.of_nat (length l)))).

(** [np.round] of a number: the nearest integer, the even one of the two
    when it is half way. *)
Definition round_half_even (q : Q) : Z :=
  let f := Qfloor q in
  match (q - inject_Z f ?= 1 # 2)%Q with
  | Lt => f
  | Gt => (f + 1)%Z
  | Eq => if Z.even f then f else (f + 1)%Z
  end.

Definition np_round (x : float) : float :=
  match x with
  | Fin q => Fin (inject_Z (round_half_even q))
  | _ => x
  end.

Definition knownFreqs : list Q := [30; 50; 60; 90; 120]%Q.

(** [np.round(np.mean(1000./np.diff(ts)))] *)
Definition recFreq (ts : list float) : float :=
  np_round (np_mean (map (fun d => fdiv (Fin 1000) d) (np_diff ts))).

(** The entries of [opt] that depend on the sampling frequency; an entry
    that is not set is [None]. *)
Record options : Set := {
  freq : Q;
  downsamples : list Z;
  chebyOrder : option Z;
  downsampFilter : option bool
}.

(** From [ts], the time stamps of all samples, the frequency told to the
    classifier and the options that go with it. *)
Definition set_options (ts : list float) : res options :=
  i ← argmin (map (fun f => fabs (fsub (Fin f) (recFreq ts))) knownFreqs);
  f ← py_getitem knownFreqs (Z.of_nat i);
  Ok (if Qeq_bool f 120 then
        {| freq := f; downsamples := [2; 3; 5]%Z;
           chebyOrder := Some 7%Z; downsampFilter := None |}
      else if Qeq_bool f 50 || Qeq_bool f 60 then
        {| freq := f; downsamples := [2; 5]%Z;
           chebyOrder := None; downsampFilter := Some false |}
      else
        {| freq := f; downsamples := [2; 3]%Z;
           chebyOrder := None; downsampFilter := Some false |}).

End e2.

(** ** Concrete inputs for the examples *)

(** Stand-ins for the library functions, used where an example needs a
    closed term.  Each is exact on the arguments where the value is
    rational and returns not-a-number elsewhere; the theorems quantify over
    every implementation. *)
Module Example.

Definition is_zero (x : float) : bool :=
  match x with Fin q => Qeq_bool q 0 | _ => false end.

Definition identity3 : mat3 :=
  ((Fin 1, Fin 0, Fin 0), (Fin 0, Fin 1, Fin 0), (Fin 0, Fin 0, Fin 1)).

(** The rotation by the zero vector is the identity. *)
Definition Rodrigues (v : vec3) : mat3 :=
  if is_zero v.1.1 && is_zero v.1.2 && is_zero v.2 then identity3
  else (nan3, nan3, nan3).

Definition np_sqrt (x : float) : float :=
  match x with
  | Fin q => if Qeq_bool q 0 then Fin 0 else if Qeq_bool q 1 then Fin 1 else NaN
  | PInf => PInf
  | _ => NaN
  end.

(** The angle, in degrees, between two vectors along the same axis. *)
Definition angle_between (v w : vec3) : float :=
  match v, w with
  | (Fin a, Fin b, Fin c), (Fin a', Fin b', Fin c') =>
      if Qeq_bool a 0 && Qeq_bool b 0 && Qeq_bool a' 0 && Qeq_bool b' 0
         && negb (Qle_bool (c * c') 0)
      then Fin 0 else NaN
  | _, _ => NaN
  end.

Definition atan2 (y x : float) : float :=
  match y, x with
  | Fin a, Fin b => if Qeq_bool a 0 && Qle_bool 0 b then Fin 0 else NaN
  | _, _ => NaN
  end.

Definition cos (x : float) : float := if is_zero x then Fin 1 else NaN.
Definition sin (x : float) : float := if is_zero x then Fin 0 else NaN.

(** A homography stands for the correspondences it is fitted to, its
    inverse and the transform of a point are not computed, and the pose
    estimate reports the number of detected markers that are on the board
    and no vectors.  There is no distortion: undistorting leaves every
    point where it is, and of the undistorted corners of a marker
    [estimateTransform] reads the first. *)
Definition Hmat : Type := list vec2 * list vec2.
Definition undistortPoints (x : list vec2) : list vec2 :=
  b_detectMarkers.detectedCorners_0 (fun p => p) x.
Definition findHomography (src dst : list vec2) : Hmat := (src, dst).
Definition inv (h : Hmat) : Hmat := (h.2, h.1).
Definition perspectiveTransform (h : Hmat) (p : vec2) : vec2 := nan2.
Definition estimatePoseBoard (board : list Z) (corners : list (list vec2))
    (ids : list Z) : Z * vec3 * vec3 :=
  (Z.of_nat (length (filter (fun i => i ∈ board) ids)), nan3, nan3).

Definition cal : b_detectMarkers.calibration :=
  {| b_detectMarkers.fx := Fin 1; b_detectMarkers.fy := Fin 1;
     b_detectMarkers.cx := Fin 0; b_detectMarkers.cy := Fin 0;
     b_detectMarkers.k1 := Fin 0; b_detectMarkers.k2 := Fin 0;
     b_detectMarkers.p1 := Fin 0; b_detectMarkers.p2 := Fin 0;
     b_detectMarkers.k3 := Fin 0 |}.

Definition pt (x y : Q) : vec2 := (Fin x, Fin y).

(** A square marker of side 2 around [(x, y)], top left corner first,
    clockwise. *)
Definition square (x y : Q) : list vec2 :=
  [pt (x - 1) (y + 1); pt (x + 1) (y + 1); pt (x + 1) (y - 1); pt (x - 1) (y - 1)].

Definition marker (x y : Q) : b_detectMarkers.Marker :=
  {| b_detectMarkers.center := pt x y; b_detectMarkers.corners := square x y |}.

(** A board with the four markers 0 to 3. *)
Definition known : gmap Z b_detectMarkers.Marker :=
  {[ 0%Z := marker 0 0; 1%Z := marker 10 0;
     2%Z := marker 0 10; 3%Z := marker 10 10 ]}.

(** The markers 0, 1 and 2 of the board and a marker 99 that is not on the
    board, as detected in a frame. *)
Definition detected_three_known : list (Z * list vec2) :=
  [(0%Z, square 100 100); (1%Z, square 200 100);
   (2%Z, square 100 200); (99%Z, square 300 300)].

(** The four markers of the board, as detected in a frame. *)
Definition detected_four_known : list (Z * list vec2) :=
  [(0%Z, square 100 100); (1%Z, square 200 100);
   (2%Z, square 100 200); (3%Z, square 200 200)].

Definition v3 (x y z : Q) : vec3 := (Fin x, Fin y, Fin z).

(** The board two units in front of the camera, facing it, in frame 0. *)
Definition pose : gmap Z (vec3 * vec3) := {[ 0%Z := (v3 0 0 0, v3 0 0 2) ]}.

(** A gaze sample: the 3D gaze point straight ahead, the eyes three units
    to the left and to the right of the camera and looking straight ahead. *)
Definition gaze : c_gazeToBoard.Gaze :=
  {| c_gazeToBoard.ts := Fin 40;
     c_gazeToBoard.x := Fin 960; c_gazeToBoard.y := Fin 540;
     c_gazeToBoard.world3D := v3 0 0 1;
     c_gazeToBoard.lGazeVec := v3 0 0 1;
     c_gazeToBoard.lGazeOrigin := v3 (-3) 0 0;
     c_gazeToBoard.rGazeVec := v3 0 0 1;
     c_gazeToBoard.rGazeOrigin := v3 3 0 0 |}.

(** The same sample with the left eye looking along the board. *)
Definition gaze_along_board : c_gazeToBoard.Gaze :=
  {| c_gazeToBoard.ts := Fin 40;
     c_gazeToBoard.x := Fin 960; c_gazeToBoard.y := Fin 540;
     c_gazeToBoard.world3D := v3 0 0 1;
     c_gazeToBoard.lGazeVec := v3 1 0 0;
     c_gazeToBoard.lGazeOrigin := v3 (-3) 0 0;
     c_gazeToBoard.rGazeVec := v3 0 0 1;
     c_gazeToBoard.rGazeOrigin := v3 3 0 0 |}.

(** Samples of [gazeWorldPos.tsv]: nothing available, and only one of the
    methods available. *)
Definition sample_none : GazeWorld :=
  {| ts := Fin 40;
     lGazeOrigin := nan3; rGazeOrigin := nan3;
     lGaze3D := nan3; rGaze3D := nan3;
     lGaze2D := nan2; rGaze2D := nan2;
     gaze3DRay := nan3; gaze2DRay := nan2;
     gaze3DHomography := nan3; gaze2DHomography := nan2 |}.

Definition sample_left : GazeWorld :=
  {| ts := Fin 40;
     lGazeOrigin := v3 (-3) 0 0; rGazeOrigin := nan3;
     lGaze3D := v3 (-3) 0 2; rGaze3D := nan3;
     lGaze2D := pt (-3) 0; rGaze2D := nan2;
     gaze3DRay := nan3; gaze2DRay := nan2;
     gaze3DHomography := nan3; gaze2DHomography := nan2 |}.

Definition sample_left_ray : GazeWorld :=
  {| ts := Fin 40;
     lGazeOrigin := v3 (-3) 0 0; rGazeOrigin := nan3;
     lGaze3D := v3 (-3) 0 2; rGaze3D := nan3;
     lGaze2D := pt (-3) 0; rGaze2D := nan2;
     gaze3DRay := v3 0 0 2; gaze2DRay := pt 0 0;
     gaze3DHomography := nan3; gaze2DHomography := nan2 |}.

Definition sample_homography : GazeWorld :=
  {| ts := Fin 80;
     lGazeOrigin := nan3; rGazeOrigin := nan3;
     lGaze3D := nan3; rGaze3D := nan3;
     lGaze2D := nan2; rGaze2D := nan2;
     gaze3DRay := nan3; gaze2DRay := nan2;
     gaze3DHomography := v3 1 0 2; gaze2DHomography := pt 1 0 |}.

(** Only the homography available, its gaze point on the target of
    [targets] below, the board two units from the camera. *)
Definition sample_homography_on_target : GazeWorld :=
  {| ts := Fin 40;
     lGazeOrigin := nan3; rGazeOrigin := nan3;
     lGaze3D := nan3; rGaze3D := nan3;
     lGaze2D := nan2; rGaze2D := nan2;
     gaze3DRay := nan3; gaze2DRay := nan2;
     gaze3DHomography := v3 0 0 2; gaze2DHomography := pt 0 0 |}.

Definition sample_all : GazeWorld :=
  {| ts := Fin 40;
     lGazeOrigin := v3 (-3) 0 0; rGazeOrigin := v3 3 0 0;
     lGaze3D := v3 (-3) 0 2; rGaze3D := v3 3 0 2;
     lGaze2D := pt (-3) 0; rGaze2D := pt 3 0;
     gaze3DRay := v3 0 0 2; gaze2DRay := pt 0 0;
     gaze3DHomography := v3 1 0 2; gaze2DHomography := pt 1 0 |}.

(** A sample at another time, and a recording of two frames of one sample
    each, 20 ms apart. *)
Definition at_ts (t : Q) (s : GazeWorld) : GazeWorld :=
  {| ts := Fin t;
     lGazeOrigin := lGazeOrigin s; rGazeOrigin := rGazeOrigin s;
     lGaze3D := lGaze3D s; rGaze3D := rGaze3D s;
     lGaze2D := lGaze2D s; rGaze2D := rGaze2D s;
     gaze3DRay := gaze3DRay s; gaze2DRay := gaze2DRay s;
     gaze3DHomography := gaze3DHomography s;
     gaze2DHomography := gaze2DHomography s |}.

Definition two_frames (s : GazeWorld) : gazeWorld_t :=
  [(0%Z, [s]); (1%Z, [at_ts 60 s])].

(** One target, number 5, at the origin of the board. *)
Definition targets : list (Z * vec2) := [(5%Z, pt 0 0)].

(** [np.hypot] where one argument is zero, where it is rational; elsewhere
    the sum of the absolute values stands in. *)
Definition hypot (a b : Q) : Q :=
  if Qeq_bool b 0 then Qabs a
  else if Qeq_bool a 0 then Qabs b
  else Qabs a + Qabs b.

(** Three fixations of 200, 100 and 300 ms at distances 5, 1 and 1 of the
    origin, and one target there. *)
Definition fixations : list e2.fixation :=
  [{| e2.xpos := 5; e2.ypos := 0; e2.dur := 200; e2.startT := 0; e2.endT := 200 |};
   {| e2.xpos := 1; e2.ypos := 0; e2.dur := 100; e2.startT := 300; e2.endT := 400 |};
   {| e2.xpos := 0; e2.ypos := 1; e2.dur := 300; e2.startT := 500; e2.endT := 800 |}].

Definition fixation_targets : list (Z * (Q * Q)) := [(1%Z, (0, 0)%Q)].

(** The rows of a marker file: the markers 0 to 3 on a square. *)
Definition marker_rows : list (Z * vec2) :=
  [(0%Z, pt 0 0); (1%Z, pt 10 0); (2%Z, pt 0 10); (3%Z, pt 10 10)].

(** The rotation matrix of the zero rotation vector. *)
Definition identityQ : qmat3 := ((1, 0, 0), (0, 1, 0), (0, 0, 1))%Q.

End Example.

(** * Properties *)

(** ** Not-a-number absorbs *)

Lemma fadd_NaN_l y : fadd NaN y = NaN.
Proof. reflexivity. Qed.

Lemma fadd_NaN_r x : fadd x NaN = NaN.
Proof. by destruct x. Qed.

Lemma fmul_NaN_l y : fmul NaN y = NaN.
Proof. reflexivity. Qed.

Lemma fmul_NaN_r x : fmul x NaN = NaN.
Proof. by destruct x. Qed.

Lemma fsub_NaN_r x : fsub x NaN = NaN.
Proof. by destruct x. Qed.

Lemma fdiv_NaN_l y : fdiv NaN y = NaN.
Proof. reflexivity. Qed.

Lemma fdiv_NaN_r x : fdiv x NaN = NaN.
Proof. by destruct x. Qed.

Lemma fltb_NaN_l y : fltb NaN y = false.
Proof. reflexivity. Qed.

Lemma fltb_NaN_r x : fltb x NaN = false.
Proof. by destruct x. Qed.

(** ** The time stamp of a frame *)

Lemma py_getitem_nonneg {A} (l : list A) (i : Z) (a : A) :
  (0 <= i)%Z -> l !! Z.to_nat i = Some a -> py_getitem l i = Ok a.
Proof.
  intros Hi Hl. unfold py_getitem.
  destruct (Z.ltb_spec i 0) as [?|_]; [lia|].
  destruct (Z.ltb_spec i 0) as [?|_]; [lia|].
  by rewrite Hl.
Qed.

Lemma py_getitem_last {A} (l : list A) (a : A) :
  last l = Some a -> py_getitem l (-1) = Ok a.
Proof.
  intros Hl. unfold py_getitem.
  change (-1 <? 0)%Z with true. cbv iota zeta.
  assert (Hlen : (0 < length l)%nat).
  { destruct l; [discriminate | simpl; lia]. }
  destruct (Z.ltb_spec (Z.of_nat (length l) + -1) 0) as [?|_]; [lia|].
  rewrite last_lookup in Hl.
  assert (Z.to_nat (Z.of_nat (length l) + -1) = pred (length l)) as -> by lia.
  by rewrite Hl.
Qed.

Lemma py_getitem_nil {A} (i : Z) : py_getitem (@nil A) i = Raise IndexError.
Proof.
  unfold py_getitem. simpl length.
  destruct (i <? 0)%Z; destruct (_ <? 0)%Z; try done.
  all: by rewrite lookup_nil.
Qed.

(** C10 (as stated, refuted): with no timestamp stored, the lookup of frame
    0 falls in the branch for indices past the end, writes the warning and
    then raises [IndexError] on [timestamps[-1]]; nothing is returned. *)
Lemma get_empty_raises :
  Idx2Timestamp.get [] 0 =
    {| Idx2Timestamp.stderr := [(0, 0)%Z];
       Idx2Timestamp.result := Raise IndexError |}.
Proof. reflexivity. Qed.

(** C10 (amended): for a frame index [idx >= 0], if [idx] is below the
    number of stored timestamps the lookup returns the timestamp stored at
    [idx] and writes no warning; if it is at or past the end and at least
    one timestamp is stored, it writes one warning and returns the last
    stored timestamp. *)
Theorem get_spec (timestamps : list Q) (idx : Z) (Hidx : (0 <= idx)%Z) :
  ((idx < Z.of_nat (length timestamps))%Z ->
     exists t, timestamps !! Z.to_nat idx = Some t /\
       Idx2Timestamp.get timestamps idx =
         {| Idx2Timestamp.stderr := []; Idx2Timestamp.result := Ok t |}) /\
  ((Z.of_nat (length timestamps) <= idx)%Z -> timestamps <> [] ->
     exists t, last timestamps = Some t /\
       Idx2Timestamp.get timestamps idx =
         {| Idx2Timestamp.stderr := [(idx, Z.of_nat (length timestamps))];
            Idx2Timestamp.result := Ok t |}).
Proof.
  split.
  - intros Hlt.
    destruct (lookup_lt_is_Some_2 timestamps (Z.to_nat idx)) as [t Ht]; [lia|].
    exists t. split; [done|]. unfold Idx2Timestamp.get.
    destruct (Z.ltb_spec idx (Z.of_nat (length timestamps))); [|lia].
    by rewrite (py_getitem_nonneg _ _ t).
  - intros Hge Hne.
    destruct (last timestamps) as [t|] eqn:Hlast.
    2:{ apply last_None in Hlast. done. }
    exists t. split; [done|]. unfold Idx2Timestamp.get.
    destruct (Z.ltb_spec idx (Z.of_nat (length timestamps))); [lia|].
    by rewrite (py_getitem_last _ t).
Qed.

Lemma get_spec_witness :
  Idx2Timestamp.get [1#2; 3#2]%Q 1 =
    {| Idx2Timestamp.stderr := []; Idx2Timestamp.result := Ok (3#2)%Q |} /\
  Idx2Timestamp.get [1#2; 3#2]%Q 5 =
    {| Idx2Timestamp.stderr := [(5, 2)%Z]; Idx2Timestamp.result := Ok (3#2)%Q |}.
Proof.
  destruct (get_spec [1#2; 3#2]%Q 1 ltac:(lia)) as [H1 _].
  destruct (get_spec [1#2; 3#2]%Q 5 ltac:(lia)) as [_ H2].
  split.
  - destruct H1 as [t [Ht ->]]; [simpl; lia|].
    simpl in Ht. by injection Ht as <-.
  - destruct H2 as [t [Ht ->]]; [simpl; lia|done|].
    simpl in Ht. by injection Ht as <-.
Defined.

(** ** Negative frame indices *)

(** X4 ([Idx2Timestamp.get] at a negative index): no warning is written; an
    index from [-n] on, [n] being the number of time stamps, reads the list
    from its end, and an index below [-n] raises [IndexError]. *)
Theorem get_negative (timestamps : list Q) (idx : Z) :
  (idx < 0)%Z ->
  let n := Z.of_nat (length timestamps) in
  let o := Idx2Timestamp.get timestamps idx in
  Idx2Timestamp.stderr o = [] /\
  ((- n <= idx)%Z ->
     exists t, timestamps !! Z.to_nat (n + idx) = Some t /\
               Idx2Timestamp.result o = Ok t) /\
  ((idx < - n)%Z -> Idx2Timestamp.result o = Raise IndexError).
Proof.
  intros Hidx n o. subst o. unfold Idx2Timestamp.get. fold n.
  destruct (Z.ltb_spec idx n) as [_|?]; [|lia].
  cbn [Idx2Timestamp.stderr Idx2Timestamp.result]. split; [done|].
  unfold py_getitem. fold n.
  destruct (Z.ltb_spec idx 0) as [_|?]; [|lia].
  split.
  - intros Hn. destruct (Z.ltb_spec (n + idx) 0) as [?|_]; [lia|].
    destruct (lookup_lt_is_Some_2 timestamps (Z.to_nat (n + idx))) as [t Ht];
      [lia|].
    exists t. by rewrite Ht.
  - intros Hn. by destruct (Z.ltb_spec (n + idx) 0) as [_|?]; [|lia].
Qed.

Lemma get_negative_witness :
  Idx2Timestamp.stderr (Idx2Timestamp.get [0; 33; 66]%Q (-1)) = [] /\
  Idx2Timestamp.result (Idx2Timestamp.get [0; 33; 66]%Q (-1)) = Ok 66%Q /\
  Idx2Timestamp.result (Idx2Timestamp.get [0; 33; 66]%Q (-4)) = Raise IndexError.
Proof.
  split; [|split].
  - apply (get_negative [0; 33; 66]%Q (-1)). lia.
  - destruct (get_negative [0; 33; 66]%Q (-1)) as (_ & H & _); [lia|].
    destruct H as (t & Ht & ->); [cbn; lia|].
    cbn in Ht. by injection Ht as <-.
  - apply (get_negative [0; 33; 66]%Q (-4)); cbn; lia.
Defined.

(** ** Plane-ray intersection *)

Lemma Qabs_pos_nonzero (x e : Q) :
  (0 < e)%Q -> (e <= Qabs x)%Q -> ~ (x == 0)%Q.
Proof.
  intros He Hx H0. rewrite H0 in Hx. simpl in Hx.
  apply (Qlt_irrefl 0). eapply Qlt_le_trans; eauto.
Qed.

(** C2: for a plane (normal [n], point [p]) and a ray (origin [o],
    direction [d]) with finite coordinates and a positive tolerance, when
    [dot(n, d)] is not within the tolerance of zero the function returns
    [o + t * d] with [t = dot(n, p - o) / dot(n, d)], a point of the plane;
    when it is within the tolerance of zero the function returns
    not-a-number in every coordinate.  It is a total function: no input
    raises. *)
Theorem intersect_plane_ray_spec (epsilon : Q) (n p d o : qvec3) :
  (0 < epsilon)%Q ->
  let ndotu := qdot3 n d in
  let t := (qdot3 n (qsub3 p o) / ndotu)%Q in
  let x := qadd3 o (qscale3 t d) in
  ((epsilon <= Qabs ndotu)%Q ->
     utils.intersect_plane_ray epsilon
       (of_qvec3 n) (of_qvec3 p) (of_qvec3 d) (of_qvec3 o) = of_qvec3 x /\
     (qdot3 n (qsub3 x p) == 0)%Q) /\
  ((Qabs ndotu < epsilon)%Q ->
     utils.intersect_plane_ray epsilon
       (of_qvec3 n) (of_qvec3 p) (of_qvec3 d) (of_qvec3 o) = nan3).
Proof.
  intros Heps ndotu t x.
  destruct n as [[n0 n1] n2], p as [[p0 p1] p2],
           d as [[d0 d1] d2], o as [[o0 o1] o2].
  unfold utils.intersect_plane_ray. cbn [of_qvec3 dot fmul fadd fabs fltb].
  change (n0 * d0 + n1 * d1 + n2 * d2)%Q with ndotu.
  split.
  - intros Hge.
    assert (Hnz : ~ (ndotu == 0)%Q) by (eapply Qabs_pos_nonzero; eauto).
    apply Qle_bool_iff in Hge as Hb. rewrite Hb. cbn [negb].
    split.
    + cbn [vsub fsub fopp fadd dot fmul fdiv].
      destruct (Qeq_bool ndotu 0) eqn:E.
      { apply Qeq_bool_iff in E. contradiction. }
      reflexivity.
    + subst x t. cbn [qsub3 qadd3 qscale3 qdot3].
      change (n0 * d0 + n1 * d1 + n2 * d2)%Q with ndotu in Hnz |- *.
      unfold ndotu in *. cbn [qdot3] in *. field. exact Hnz.
  - intros Hlt.
    destruct (Qle_bool epsilon (Qabs ndotu)) eqn:E.
    + apply Qle_bool_iff in E. exfalso.
      apply (Qlt_irrefl epsilon). eapply Qle_lt_trans; eauto.
    + reflexivity.
Qed.

Lemma intersect_plane_ray_spec_witness :
  (* a ray from the origin along z meets the plane z = 2 at (0, 0, 2) *)
  utils.intersect_plane_ray (1 # 1000000)
    (of_qvec3 (0, 0, 1)%Q) (of_qvec3 (0, 0, 2)%Q)
    (of_qvec3 (0, 0, 1)%Q) (of_qvec3 (0, 0, 0)%Q)
  = of_qvec3 (qadd3 (0, 0, 0)%Q
       (qscale3 (qdot3 (0, 0, 1)%Q (qsub3 (0, 0, 2)%Q (0, 0, 0)%Q)
                 / qdot3 (0, 0, 1)%Q (0, 0, 1)%Q)%Q (0, 0, 1)%Q)) /\
  (* a ray along x is parallel to it *)
  utils.intersect_plane_ray (1 # 1000000)
    (of_qvec3 (0, 0, 1)%Q) (of_qvec3 (0, 0, 2)%Q)
    (of_qvec3 (1, 0, 0)%Q) (of_qvec3 (0, 0, 0)%Q) = nan3.
Proof.
  split.
  - apply (intersect_plane_ray_spec (1 # 1000000)
             (0, 0, 1)%Q (0, 0, 2)%Q (0, 0, 1)%Q (0, 0, 0)%Q); reflexivity || discriminate.
  - apply (intersect_plane_ray_spec (1 # 1000000)
             (0, 0, 1)%Q (0, 0, 2)%Q (1, 0, 0)%Q (0, 0, 0)%Q); reflexivity.
Defined.

(** ** Homography and pose of a frame *)

Section detect.

Variable Hmat : Type.
Variable undistortPoints : list vec2 -> list vec2.
Variable findHomography : list vec2 -> list vec2 -> Hmat.
Variable estimatePoseBoard : list (list vec2) -> list Z -> Z * vec3 * vec3.
Variable inv : Hmat -> Hmat.
Variable perspectiveTransform : Hmat -> vec2 -> vec2.

Abbreviation undistorted det := (map (fun d : Z * list vec2 => (d.1, undistortPoints d.2)) det).
Abbreviation pts_src known det :=
  (flat_map (fun d : Z * list vec2 => undistortPoints d.2) (b_detectMarkers.matched known det)).
Abbreviation pts_dst known det :=
  (flat_map (fun d : Z * list vec2 => b_detectMarkers.known_corners known d.1)
            (b_detectMarkers.matched known det)).

(** The loop of [estimateTransform] appends, for every detected marker that
    is known, in order and as often as it is detected, what it reads of the
    undistorted corners of the marker and all its corners on the board. *)
Lemma collect_matched known det src dst :
  b_detectMarkers.collect known (undistorted det) src dst =
  (src ++ pts_src known det, dst ++ pts_dst known det).
Proof.
  revert src dst. induction det as [|[id c] det IH]; intros src dst.
  - cbn. by rewrite !app_nil_r.
  - cbn [map b_detectMarkers.collect fst snd].
    unfold b_detectMarkers.matched. rewrite filter_cons. cbn [fst].
    destruct (known !! id) as [m|] eqn:Hk.
    + rewrite decide_True by eauto. cbn [flat_map fst snd].
      unfold b_detectMarkers.known_corners at 1. rewrite Hk.
      rewrite IH. unfold b_detectMarkers.matched. by rewrite !app_assoc.
    + rewrite decide_False by (intros [? ?]; done). apply IH.
Qed.

Lemma estimateTransform_matched known det :
  b_detectMarkers.estimateTransform Hmat findHomography known (undistorted det) =
  if (length (pts_src known det) <? 4)%nat then None
  else Some (findHomography (pts_src known det) (pts_dst known det)).
Proof.
  unfold b_detectMarkers.estimateTransform.
  by rewrite collect_matched.
Qed.

End detect.

(** What [estimateTransform] reads of the undistorted corners of a marker:
    the first corner, undistorted, and no other. *)
Lemma detectedCorners_0_first (undistort : vec2 -> vec2) (x : list vec2) :
  b_detectMarkers.detectedCorners_0 undistort x = map undistort (take 1 x).
Proof. by destruct x. Qed.

Lemma pts_src_first (undistort : vec2 -> vec2) (m : list (Z * list vec2)) :
  Forall (fun d => length d.2 = 4%nat) m ->
  length (flat_map (fun d : Z * list vec2 =>
                      b_detectMarkers.detectedCorners_0 undistort d.2) m) = length m.
Proof.
  induction 1 as [|d m Hd _ IH]; [done|].
  cbn [flat_map length]. rewrite length_app, IH, detectedCorners_0_first.
  rewrite length_map, length_take. lia.
Qed.

Lemma matched_Forall {P : Z * list vec2 -> Prop} known det :
  Forall P det -> Forall P (b_detectMarkers.matched known det).
Proof.
  rewrite !Forall_forall. intros H d Hd. apply H.
  unfold b_detectMarkers.matched in Hd.
  by apply list_elem_of_filter in Hd as [_ ?].
Qed.

Lemma matched_length known det :
  (length (b_detectMarkers.matched known det) <= length det)%nat.
Proof. apply length_filter. Qed.


(** C5 (as stated, refuted): there is no frame whose row holds a pose while
    the homography estimate failed.  Whatever OpenCV computes, a row is
    written only under [if status:], after the homography. *)
Lemma no_pose_without_homography :
  ~ (exists (Hmat : Type) (undistortPoints : list vec2 -> list vec2)
       (findHomography : list vec2 -> list vec2 -> Hmat)
       (estimatePoseBoard : list (list vec2) -> list Z -> Z * vec3 * vec3)
       (inv : Hmat -> Hmat) (perspectiveTransform : Hmat -> vec2 -> vec2)
       (cal : b_detectMarkers.calibration)
       (known : gmap Z b_detectMarkers.Marker)
       (center_target : vec2) (idx : Z) (det : list (Z * list vec2))
       (r : b_detectMarkers.row Hmat),
       b_detectMarkers.process_frame Hmat undistortPoints findHomography
         estimatePoseBoard inv perspectiveTransform cal known center_target
         idx (Some det) = Some r /\
       b_detectMarkers.estimateTransform Hmat findHomography known
         (map (fun d => (d.1, undistortPoints d.2)) det) = None).
Proof.
  intros (Hmat & und & findH & est & inv & persp & cal & known & ct & idx
          & det & r & Hrow & Hnone).
  unfold b_detectMarkers.process_frame in Hrow. rewrite Hnone in Hrow.
  by destruct (4 <=? length det)%nat.
Qed.

(** C5 (amended): whether a row is written for a frame does not depend on
    the pose estimate: it is written exactly when at least four markers are
    detected and the homography estimate succeeds, and it then holds both
    that homography and whatever [estimatePoseBoard] returns for the
    detected, not undistorted, corners and all the detected numbers; when
    the homography estimate fails the frame is absent from the table. *)
Theorem row_holds_homography_and_pose
    (Hmat : Type) (undistortPoints : list vec2 -> list vec2)
    (findHomography : list vec2 -> list vec2 -> Hmat)
    (estimatePoseBoard estimatePoseBoard' :
       list (list vec2) -> list Z -> Z * vec3 * vec3)
    (inv : Hmat -> Hmat) (perspectiveTransform : Hmat -> vec2 -> vec2)
    (cal : b_detectMarkers.calibration) (known : gmap Z b_detectMarkers.Marker)
    (center_target : vec2) (idx : Z) (det : list (Z * list vec2)) :
  let process est :=
    b_detectMarkers.process_frame Hmat undistortPoints findHomography
      est inv perspectiveTransform cal known center_target idx (Some det) in
  let status :=
    b_detectMarkers.estimateTransform Hmat findHomography known
      (map (fun d => (d.1, undistortPoints d.2)) det) in
  (is_Some (process estimatePoseBoard) <-> is_Some (process estimatePoseBoard')) /\
  (is_Some (process estimatePoseBoard) <->
     (4 <= length det)%nat /\ is_Some status) /\
  (forall r, process estimatePoseBoard = Some r ->
     status = Some (b_detectMarkers.transformation Hmat r) /\
     (b_detectMarkers.poseNMarker Hmat r, b_detectMarkers.poseRvec Hmat r,
      b_detectMarkers.poseTvec Hmat r)
       = estimatePoseBoard (map snd det) (map fst det)).
Proof.
  intros process status. subst process.
  unfold b_detectMarkers.process_frame. fold status.
  destruct (Nat.leb_spec 4 (length det)) as [Hdet|Hdet].
  - destruct status as [H|].
    + destruct (estimatePoseBoard _ _) as [[n R] T] eqn:E.
      destruct (estimatePoseBoard' _ _) as [[n' R'] T'].
      split; [split; eauto|]. split; [split; eauto|].
      by intros r [= <-].
    + split; [done|]. split; [|done].
      split; [by intros [? ?]|by intros [_ [? ?]]].
  - split; [done|]. split; [|done].
    split; [by intros [? ?]|]. intros [? _]. lia.
Qed.

Lemma row_holds_homography_and_pose_witness :
  (* three markers of the board and one that is not on it: the pose
     estimate reports three markers, the homography estimate fails, and the
     frame has no row *)
  (Example.estimatePoseBoard [0; 1; 2; 3]%Z
     (map snd Example.detected_three_known)
     (map fst Example.detected_three_known)).1.1 = 3%Z /\
  b_detectMarkers.process_frame Example.Hmat Example.undistortPoints
    Example.findHomography (Example.estimatePoseBoard [0; 1; 2; 3]%Z)
    Example.inv Example.perspectiveTransform Example.cal Example.known
    (Example.pt 5 5) 7 (Some Example.detected_three_known) = None.
Proof.
  split; [reflexivity|].
  destruct (row_holds_homography_and_pose Example.Hmat Example.undistortPoints
              Example.findHomography (Example.estimatePoseBoard [0; 1; 2; 3]%Z)
              (Example.estimatePoseBoard [])
              Example.inv Example.perspectiveTransform Example.cal Example.known
              (Example.pt 5 5) 7 Example.detected_three_known)
    as (_ & Hiff & _).
  apply eq_None_not_Some. intros Hrow.
  destruct (proj1 Hiff Hrow) as [_ [h Hh]]. vm_compute in Hh. discriminate Hh.
Defined.

(** ** Known markers and the points of the homography *)

Lemma getKnownMarkers_snoc cellSizeCm h rows row :
  b_detectMarkers.getKnownMarkers cellSizeCm h (rows ++ [row]) =
  let c := (fmul cellSizeCm row.2.1, fmul cellSizeCm row.2.2) in
  <[row.1 := {| b_detectMarkers.center := c;
                b_detectMarkers.corners := b_detectMarkers.marker_corners c h |}]>
    (b_detectMarkers.getKnownMarkers cellSizeCm h rows).
Proof. unfold b_detectMarkers.getKnownMarkers. by rewrite foldl_app. Qed.

Lemma getKnownMarkers_corners cellSizeCm h rows id m :
  b_detectMarkers.getKnownMarkers cellSizeCm h rows !! id = Some m ->
  b_detectMarkers.corners m =
    b_detectMarkers.marker_corners (b_detectMarkers.center m) h.
Proof.
  induction rows as [|row rows IH] using rev_ind; [done|].
  rewrite getKnownMarkers_snoc. cbn zeta.
  destruct (decide (row.1 = id)) as [->|Hne].
  - rewrite lookup_insert_eq. by intros [= <-].
  - by rewrite lookup_insert_ne.
Qed.

Section points.

Variable undistort : vec2 -> vec2.

Abbreviation cornersU det :=
  (map (fun d : Z * list vec2 =>
          (d.1, b_detectMarkers.detectedCorners_0 undistort d.2)) det).

Lemma known_corners_length cellSizeCm h rows (m : list (Z * list vec2)) :
  let known := b_detectMarkers.getKnownMarkers cellSizeCm h rows in
  Forall (fun d => is_Some (known !! d.1)) m ->
  length (flat_map (fun d : Z * list vec2 =>
                      b_detectMarkers.known_corners known d.1) m)
    = (4 * length m)%nat.
Proof.
  intros known. induction 1 as [|d l [mk Hd] _ IH]; [done|].
  cbn [flat_map length]. rewrite length_app, IH.
  unfold b_detectMarkers.known_corners. rewrite Hd.
  rewrite (getKnownMarkers_corners _ _ _ _ _ Hd). cbn. lia.
Qed.


End points.


(** ** The frames of the video *)

Section video.

Variable Hmat : Type.
Variable undistortPoints : list vec2 -> list vec2.
Variable findHomography : list vec2 -> list vec2 -> Hmat.
Variable estimatePoseBoard : list (list vec2) -> list Z -> Z * vec3 * vec3.
Variable inv : Hmat -> Hmat.
Variable perspectiveTransform : Hmat -> vec2 -> vec2.

Abbreviation process_frame :=
  (b_detectMarkers.process_frame Hmat undistortPoints findHomography
     estimatePoseBoard inv perspectiveTransform).
Abbreviation process_frames :=
  (b_detectMarkers.process_frames Hmat undistortPoints findHomography
     estimatePoseBoard inv perspectiveTransform).

Lemma process_frame_idx cal known ct idx det r :
  process_frame cal known ct idx det = Some r ->
  b_detectMarkers.frame_idx Hmat r = idx.
Proof.
  unfold b_detectMarkers.process_frame.
  destruct det as [det|]; [|done].
  destruct (4 <=? length det)%nat; [|done].
  destruct (b_detectMarkers.estimateTransform _ _ _ _) as [H|]; [|done].
  destruct (estimatePoseBoard _ _) as [[n Rvec] Tvec].
  by intros [= <-].
Qed.

Lemma process_frames_elem cal known ct frames idx r :
  r ∈ process_frames cal known ct idx frames <->
  exists (i : nat) det q,
    frames !! i = Some (det, q) /\
    (forall j, (j < i)%nat -> exists d, frames !! j = Some (d, false)) /\
    process_frame cal known ct (idx + Z.of_nat i) det = Some r.
Proof.
  revert idx. induction frames as [|[det q] frames IH]; intros idx.
  - cbn. split; [by intros ?%elem_of_nil|]. by intros (i & ? & ? & ? & _).
  - cbn [b_detectMarkers.process_frames].
    assert (Hhere : forall r, r ∈ match process_frame cal known ct idx det with
                                  | Some r => [r] | None => [] end <->
                              process_frame cal known ct idx det = Some r).
    { intros r'. destruct (process_frame cal known ct idx det) as [r0|].
      - rewrite list_elem_of_singleton. split; [by intros ->|by intros [= ->]].
      - split; [by intros ?%elem_of_nil|done]. }
    destruct q.
    + rewrite Hhere. split.
      * intros H. exists 0%nat, det, true. rewrite Z.add_0_r.
        split; [done|]. split; [lia|done].
      * intros ([|i] & d & q & Hi & Hprev & Hr).
        -- cbn in Hi. injection Hi as <- <-. by rewrite Z.add_0_r in Hr.
        -- destruct (Hprev 0%nat) as [d' Hd']; [lia|]. done.
    + rewrite elem_of_app, Hhere, IH. split.
      * intros [H|(i & d & q & Hi & Hprev & Hr)].
        -- exists 0%nat, det, false. rewrite Z.add_0_r.
           split; [done|]. split; [lia|done].
        -- exists (S i), d, q. split; [done|]. split.
           ++ intros [|j] Hj; [by eexists|]. apply Hprev. lia.
           ++ by replace (idx + Z.of_nat (S i))%Z with (idx + 1 + Z.of_nat i)%Z by lia.
      * intros ([|i] & d & q & Hi & Hprev & Hr).
        -- left. cbn in Hi. injection Hi as <- <-. by rewrite Z.add_0_r in Hr.
        -- right. exists i, d, q. split; [done|]. split.
           ++ intros j Hj. apply (Hprev (S j)). lia.
           ++ by replace (idx + 1 + Z.of_nat i)%Z with (idx + Z.of_nat (S i))%Z by lia.
Qed.

Lemma process_frames_sorted cal known ct frames idx :
  Forall (fun r => idx <= b_detectMarkers.frame_idx Hmat r)%Z
         (process_frames cal known ct idx frames) /\
  StronglySorted (fun a b => b_detectMarkers.frame_idx Hmat a <
                             b_detectMarkers.frame_idx Hmat b)%Z
                 (process_frames cal known ct idx frames).
Proof.
  revert idx. induction frames as [|[det q] frames IH]; intros idx.
  - cbn. split; constructor.
  - cbn [b_detectMarkers.process_frames].
    destruct (IH (idx + 1)%Z) as [Hge Hs].
    destruct (process_frame cal known ct idx det) as [r|] eqn:Hr.
    + apply process_frame_idx in Hr.
      destruct q.
      * split; [constructor; [lia|constructor]|repeat constructor].
      * cbn [app]. split.
        -- constructor; [lia|]. eapply Forall_impl; [exact Hge|].
           intros r' Hr'. cbn beta in Hr'. lia.
        -- constructor; [done|]. eapply Forall_impl; [exact Hge|].
           intros r' Hr'. cbn beta in Hr'. lia.
    + destruct q; cbn [app].
      * split; constructor.
      * split; [|done]. eapply Forall_impl; [exact Hge|].
        intros r' Hr'. cbn beta in Hr'. lia.
Qed.

(** X3 (the loop over the frames of the video): a row is written for frame
    [i] exactly when [q] was not pressed at an earlier frame and the body
    of the loop gives a row for that frame, under the number [i]; the rows
    are in strictly increasing order of frame number, so at most one per
    frame. *)
Theorem rows_in_frame_order cal known ct (frames : list (b_detectMarkers.detection * bool)) :
  let rows := process_frames cal known ct 0 frames in
  (forall r, r ∈ rows <->
     exists (i : nat) det q,
       frames !! i = Some (det, q) /\
       (forall j, (j < i)%nat -> exists d, frames !! j = Some (d, false)) /\
       process_frame cal known ct (Z.of_nat i) det = Some r) /\
  StronglySorted (fun a b => b_detectMarkers.frame_idx Hmat a <
                             b_detectMarkers.frame_idx Hmat b)%Z rows.
Proof.
  intros rows. split.
  - intros r. subst rows. rewrite process_frames_elem.
    by setoid_rewrite Z.add_0_l.
  - apply process_frames_sorted.
Qed.

End video.

(** ** Gaze on the board *)

Lemma dot_nan3_r (v : vec3) : dot v nan3 = NaN.
Proof.
  destruct v as [[a b] c]. unfold dot, nan3.
  by rewrite !fmul_NaN_r.
Qed.

Lemma matvec34_nan3 (R : mat3) (t : vec3) (w : float) :
  matvec34 R t nan3 w = nan3.
Proof.
  destruct R as [[r0 r1] r2], t as [[t0 t1] t2].
  unfold matvec34. by rewrite !dot_nan3_r.
Qed.

Lemma intersect_plane_ray_nan3 (epsilon : Q) (n p o : vec3) :
  utils.intersect_plane_ray epsilon n p nan3 o = nan3.
Proof.
  unfold utils.intersect_plane_ray. rewrite dot_nan3_r. cbn [fabs fltb].
  rewrite fdiv_NaN_r. destruct o as [[o0 o1] o2].
  unfold vscale, vadd, nan3. cbn [fmul]. by rewrite !fadd_NaN_r.
Qed.

Lemma make_average_writeDat (st : c_gazeToBoard.locals) :
  c_gazeToBoard.writeDat (c_gazeToBoard.make_average st) =
  c_gazeToBoard.writeDat st.
Proof.
  unfold c_gazeToBoard.make_average.
  by destruct (c_gazeToBoard.offsets st !! "left"),
              (c_gazeToBoard.offsets st !! "right").
Qed.

Lemma make_average_offsets (st : c_gazeToBoard.locals) :
  c_gazeToBoard.offsets (c_gazeToBoard.make_average st) =
  match c_gazeToBoard.offsets st !! "left",
        c_gazeToBoard.offsets st !! "right" with
  | Some l, Some r =>
      <[ "average" := c_gazeToBoard.mean2 l r ]> (c_gazeToBoard.offsets st)
  | _, _ => c_gazeToBoard.offsets st
  end.
Proof.
  unfold c_gazeToBoard.make_average.
  by destruct (c_gazeToBoard.offsets st !! "left"),
              (c_gazeToBoard.offsets st !! "right").
Qed.

Section gaze_on_board.

Variable Rodrigues : vec3 -> mat3.
Variable np_sqrt : float -> float.
Variable epsilon : Q.
Variables cameraRotation cameraPosition : vec3.

Abbreviation gaze_on_board :=
  (c_gazeToBoard.gaze_on_board Rodrigues np_sqrt epsilon cameraRotation cameraPosition).
Abbreviation eye_gBoard :=
  (c_gazeToBoard.eye_gBoard Rodrigues epsilon cameraRotation cameraPosition).
Abbreviation eye_columns :=
  (c_gazeToBoard.eye_columns Rodrigues epsilon cameraRotation cameraPosition).
Abbreviation ray_columns :=
  (c_gazeToBoard.ray_columns Rodrigues np_sqrt epsilon cameraRotation).
Abbreviation ray_gBoard :=
  (c_gazeToBoard.ray_gBoard Rodrigues np_sqrt epsilon cameraRotation).
Abbreviation to_board := (c_gazeToBoard.to_board Rodrigues).
Abbreviation eyes_offsets :=
  (c_gazeToBoard.eyes_offsets Rodrigues np_sqrt epsilon cameraRotation cameraPosition).

Lemma gaze_on_board_eyes frame_idx frame_ts rvec tvec gaze :
  let st := gaze_on_board frame_idx frame_ts rvec tvec gaze in
  c_gazeToBoard.writeDat st =
    ray_columns frame_idx frame_ts rvec tvec gaze
      ++ eye_columns rvec tvec (c_gazeToBoard.lGazeVec gaze)
           (c_gazeToBoard.lGazeOrigin gaze)
      ++ eye_columns rvec tvec (c_gazeToBoard.rGazeVec gaze)
           (c_gazeToBoard.rGazeOrigin gaze) /\
  c_gazeToBoard.offsets st =
    let o := eyes_offsets rvec tvec gaze in
    match o !! "left", o !! "right" with
    | Some l, Some r => <[ "average" := c_gazeToBoard.mean2 l r ]> o
    | _, _ => o
    end.
Proof.
  unfold c_gazeToBoard.gaze_on_board. cbv zeta.
  rewrite make_average_writeDat, make_average_offsets.
  cbn [foldl c_gazeToBoard.eye_step].
  unfold c_gazeToBoard.eyes_offsets, c_gazeToBoard.eye_columns,
    c_gazeToBoard.ray_columns, c_gazeToBoard.eye_gBoard,
    c_gazeToBoard.ray_gBoard, c_gazeToBoard.to_board.
  cbv zeta.
  set (gl := utils.intersect_plane_ray _ _ _
               (matvec34 _ _ (c_gazeToBoard.lGazeVec gaze) _) _).
  set (gr := utils.intersect_plane_ray _ _ _
               (matvec34 _ _ (c_gazeToBoard.rGazeVec gaze) _) _).
  destruct (isnan gl.1.1) eqn:El, (isnan gr.1.1) eqn:Er;
    cbn [negb c_gazeToBoard.writeDat c_gazeToBoard.offsets
         c_gazeToBoard.boardPosCam];
    (split; [by rewrite <- ?app_assoc | reflexivity]).
Qed.

End gaze_on_board.

Section missing_eye.

Variable Rodrigues : vec3 -> mat3.
Variable np_sqrt : float -> float.
Variable epsilon : Q.
Variables cameraRotation cameraPosition : vec3.

Abbreviation process_sample :=
  (c_gazeToBoard.process_sample Rodrigues np_sqrt epsilon cameraRotation cameraPosition).

Lemma eye_columns_nan3 rvec tvec :
  c_gazeToBoard.eye_columns Rodrigues epsilon cameraRotation cameraPosition
    rvec tvec nan3 nan3 = replicate 8 NaN.
Proof.
  unfold c_gazeToBoard.eye_columns, c_gazeToBoard.eye_gBoard. cbv zeta.
  rewrite !matvec34_nan3, intersect_plane_ray_nan3. reflexivity.
Qed.

Lemma eye_columns_length rvec tvec gVec gOri :
  length (c_gazeToBoard.eye_columns Rodrigues epsilon cameraRotation
            cameraPosition rvec tvec gVec gOri) = 8%nat.
Proof.
  unfold c_gazeToBoard.eye_columns. cbv zeta.
  rewrite !length_app. by destruct (isnan _).
Qed.

Lemma ray_columns_length frame_idx frame_ts rvec tvec gaze :
  length (c_gazeToBoard.ray_columns Rodrigues np_sqrt epsilon cameraRotation
            frame_idx frame_ts rvec tvec gaze) = 14%nat.
Proof. reflexivity. Qed.

Lemma ray_columns_without_left frame_idx frame_ts rvec tvec gaze :
  c_gazeToBoard.ray_columns Rodrigues np_sqrt epsilon cameraRotation
    frame_idx frame_ts rvec tvec (c_gazeToBoard.without_left gaze) =
  c_gazeToBoard.ray_columns Rodrigues np_sqrt epsilon cameraRotation
    frame_idx frame_ts rvec tvec gaze.
Proof. reflexivity. Qed.

Lemma ray_columns_without_right frame_idx frame_ts rvec tvec gaze :
  c_gazeToBoard.ray_columns Rodrigues np_sqrt epsilon cameraRotation
    frame_idx frame_ts rvec tvec (c_gazeToBoard.without_right gaze) =
  c_gazeToBoard.ray_columns Rodrigues np_sqrt epsilon cameraRotation
    frame_idx frame_ts rvec tvec gaze.
Proof. reflexivity. Qed.

(** The row of a sample, when its frame has a pose: fourteen columns that
    do not depend on the eyes, then eight for each eye that depend on that
    eye only. *)
Lemma process_sample_Some pose frame_idx frame_ts gaze rvec tvec :
  pose !! frame_idx = Some (rvec, tvec) ->
  process_sample pose frame_idx frame_ts gaze =
    Some (c_gazeToBoard.ray_columns Rodrigues np_sqrt epsilon cameraRotation
            frame_idx frame_ts rvec tvec gaze
          ++ c_gazeToBoard.eye_columns Rodrigues epsilon cameraRotation
               cameraPosition rvec tvec
               (c_gazeToBoard.lGazeVec gaze) (c_gazeToBoard.lGazeOrigin gaze)
          ++ c_gazeToBoard.eye_columns Rodrigues epsilon cameraRotation
               cameraPosition rvec tvec
               (c_gazeToBoard.rGazeVec gaze) (c_gazeToBoard.rGazeOrigin gaze)).
Proof.
  intros Hp. unfold c_gazeToBoard.process_sample. rewrite Hp.
  f_equal. apply gaze_on_board_eyes.
Qed.

End missing_eye.

(** ** The reading of the gaze data and of the poses *)

Lemma read_gazes_snoc entries e :
  c_gazeToBoard.read_gazes (entries ++ [e]) =
  c_gazeToBoard.add_gaze (c_gazeToBoard.read_gazes entries) e.
Proof. unfold c_gazeToBoard.read_gazes. by rewrite foldl_app. Qed.

Lemma samples_of_frame_snoc entries e k :
  c_gazeToBoard.samples_of_frame (entries ++ [e]) k =
  c_gazeToBoard.samples_of_frame entries k ++ (if decide (e.1 = k) then [e.2] else []).
Proof.
  unfold c_gazeToBoard.samples_of_frame. rewrite filter_app, map_app. f_equal.
  rewrite filter_cons, filter_nil. by destruct (decide (e.1 = k)).
Qed.

Lemma read_gazes_lookup entries k :
  (c_gazeToBoard.read_gazes entries).1 !! k =
  match c_gazeToBoard.samples_of_frame entries k with
  | [] => None
  | l => Some l
  end.
Proof.
  induction entries as [|[f g] entries IH] using rev_ind; [done|].
  rewrite read_gazes_snoc, samples_of_frame_snoc.
  destruct (c_gazeToBoard.read_gazes entries) as [gazes m]. cbn [fst snd] in *.
  unfold c_gazeToBoard.add_gaze. cbn [fst snd].
  destruct (decide (f = k)) as [->|Hne].
  - rewrite IH. destruct (c_gazeToBoard.samples_of_frame entries k) as [|x l] eqn:E;
      by rewrite lookup_insert_eq.
  - rewrite app_nil_r.
    destruct (gazes !! f); by rewrite lookup_insert_ne.
Qed.

Lemma read_gazes_max entries :
  let m := (c_gazeToBoard.read_gazes entries).2 in
  (0 <= m)%Z /\ (forall e, e ∈ entries -> (e.1 <= m)%Z) /\
  (m = 0%Z \/ exists e, e ∈ entries /\ e.1 = m).
Proof.
  induction entries as [|[f g] entries IH] using rev_ind.
  - cbn. split; [done|]. split; [|by left]. by intros e ?%elem_of_nil.
  - rewrite read_gazes_snoc.
    destruct (c_gazeToBoard.read_gazes entries) as [gazes m]. cbn [fst snd] in *.
    destruct IH as (H0 & Hle & Hin).
    unfold c_gazeToBoard.add_gaze. cbn [fst snd].
    split; [lia|]. split.
    + intros e [He|He]%elem_of_app.
      * specialize (Hle e He). lia.
      * apply list_elem_of_singleton in He as ->. cbn. lia.
    + destruct (Z.max_spec m f) as [[? ->]|[? ->]].
      * right. exists (f, g). split; [|done]. apply elem_of_app. right.
        by apply list_elem_of_singleton.
      * destruct Hin as [->|(e & He & <-)]; [by left|].
        right. exists e. split; [|done]. apply elem_of_app. by left.
Qed.

(** X5 (the reading of [gazeData.tsv]): [gazes] maps a frame to the samples
    of that frame in the order of the file and has no entry for a frame
    without samples; [maxFrameIdx] is not negative, is at least every frame
    index of the file, and is 0 or one of them. *)
Theorem read_gazes_spec (entries : list (Z * c_gazeToBoard.Gaze)) :
  let gazes := (c_gazeToBoard.read_gazes entries).1 in
  let maxFrameIdx := (c_gazeToBoard.read_gazes entries).2 in
  (forall k, gazes !! k =
     match map snd (filter (fun e => e.1 = k) entries) with
     | [] => None
     | l => Some l
     end) /\
  (0 <= maxFrameIdx)%Z /\
  (forall e, e ∈ entries -> (e.1 <= maxFrameIdx)%Z) /\
  (maxFrameIdx = 0%Z \/ exists e, e ∈ entries /\ e.1 = maxFrameIdx).
Proof.
  intros gazes m. split; [apply read_gazes_lookup | apply read_gazes_max].
Qed.

Lemma read_pose_snoc rows row :
  c_gazeToBoard.read_pose (rows ++ [row]) =
  (<[row.1.1 := row.1.2]> (c_gazeToBoard.read_pose rows).1,
   <[row.1.1 := row.2]> (c_gazeToBoard.read_pose rows).2).
Proof.
  unfold c_gazeToBoard.read_pose. rewrite foldl_app. cbn [foldl].
  destruct (foldl _ _ rows) as [rVec tVec]. by destruct row as [[f r] t].
Qed.

Lemma read_pose_lookup rows k :
  ((c_gazeToBoard.read_pose rows).1 !! k, (c_gazeToBoard.read_pose rows).2 !! k) =
  match last (filter (fun row : Z * vec3 * vec3 => row.1.1 = k) rows) with
  | Some row => (Some row.1.2, Some row.2)
  | None => (None, None)
  end.
Proof.
  induction rows as [|[[f r] t] rows IH] using rev_ind; [done|].
  rewrite read_pose_snoc, filter_app, filter_cons, filter_nil. cbn [fst snd].
  destruct (decide (f = k)) as [->|Hne].
  - rewrite last_snoc. cbn. by rewrite !lookup_insert_eq.
  - rewrite app_nil_r, !lookup_insert_ne by done. exact IH.
Qed.

(** X6 (the reading of [boardPose.tsv]): [rVec] and [tVec] have the same
    frames, and for each frame they hold the two vectors of the last row of
    that frame in the file. *)
Theorem read_pose_spec (rows : list (Z * vec3 * vec3)) (k : Z) :
  let rVec := (c_gazeToBoard.read_pose rows).1 in
  let tVec := (c_gazeToBoard.read_pose rows).2 in
  (is_Some (rVec !! k) <-> is_Some (tVec !! k)) /\
  map_zip rVec tVec !! k =
    (fun row : Z * vec3 * vec3 => (row.1.2, row.2)) <$>
      last (filter (fun row : Z * vec3 * vec3 => row.1.1 = k) rows).
Proof.
  intros rVec tVec. pose proof (read_pose_lookup rows k) as H.
  fold rVec tVec in H. rewrite map_lookup_zip_with.
  destruct (last _) as [row|]; injection H as -> ->; cbn.
  - split; [|done]. split; eauto.
  - split; [|done]. split; intros [? ?]; done.
Qed.

(** ** The loop over the frames *)

Lemma get_Ok (timestamps : list Q) (idx : Z) :
  timestamps <> [] -> (0 <= idx)%Z ->
  exists t, Idx2Timestamp.result (Idx2Timestamp.get timestamps idx) = Ok t.
Proof.
  intros Hne Hidx. unfold Idx2Timestamp.get.
  destruct (Z.ltb_spec idx (Z.of_nat (length timestamps))) as [Hlt|Hge];
    cbn [Idx2Timestamp.result].
  - destruct (lookup_lt_is_Some_2 timestamps (Z.to_nat idx)) as [t Ht]; [lia|].
    exists t. by apply py_getitem_nonneg.
  - destruct (last timestamps) as [t|] eqn:Hl.
    + exists t. by apply py_getitem_last.
    + apply last_None in Hl. done.
Qed.

Section frames.

Variable Rodrigues : vec3 -> mat3.
Variable np_sqrt : float -> float.
Variable epsilon : Q.
Variable cameraRotation : vec3.
Variable cameraPosition : vec3.

Abbreviation process_sample :=
  (c_gazeToBoard.process_sample Rodrigues np_sqrt epsilon cameraRotation
     cameraPosition).
Abbreviation process_frames :=
  (c_gazeToBoard.process_frames Rodrigues np_sqrt epsilon cameraRotation
     cameraPosition).
Abbreviation process :=
  (c_gazeToBoard.process Rodrigues np_sqrt epsilon cameraRotation
     cameraPosition).

Lemma process_frames_no_video timestamps gazes pose frames :
  timestamps <> [] -> Forall (fun k => 0 <= k)%Z frames ->
  process_frames timestamps gazes pose None frames =
  {| c_gazeToBoard.written :=
       flat_map (fun k => omap (process_sample pose k (c_gazeToBoard.frame_ts_of timestamps k))
                               (default [] (gazes !! k))) frames;
     c_gazeToBoard.warnings :=
       flat_map (fun k => Idx2Timestamp.stderr (Idx2Timestamp.get timestamps k))
                frames;
     c_gazeToBoard.returned := Ok false |}.
Proof.
  intros Hne. induction 1 as [|k frames Hk _ IH]; [done|].
  cbn [c_gazeToBoard.process_frames c_gazeToBoard.cap_read flat_map].
  unfold c_gazeToBoard.frame_ts_of.
  destruct (get_Ok timestamps k Hne Hk) as [t ->].
  by rewrite IH.
Qed.

Lemma seqZ_nonneg (n : Z) : Forall (fun k => 0 <= k)%Z (seqZ 0 n).
Proof. apply Forall_forall. intros k Hk. apply elem_of_seqZ in Hk. lia. Qed.

Lemma default_samples_of_frame entries k :
  default [] ((c_gazeToBoard.read_gazes entries).1 !! k) = c_gazeToBoard.samples_of_frame entries k.
Proof. rewrite read_gazes_lookup. by destruct (c_gazeToBoard.samples_of_frame entries k). Qed.

(** X7 (the loop over the frames, without visualization): with at least one
    frame time stamp the run raises nothing and returns [False]; the rows
    written are, frame by frame from 0 to [maxFrameIdx] and in the order of
    the file within a frame, those of the samples whose frame has a pose.
    A sample gets a row if and only if its frame index is not negative and
    its frame has a pose. *)
Theorem process_rows (timestamps : list Q)
    (entries : list (Z * c_gazeToBoard.Gaze))
    (pose_rows : list (Z * vec3 * vec3)) :
  timestamps <> [] ->
  let r := process timestamps entries pose_rows None in
  let maxFrameIdx := (c_gazeToBoard.read_gazes entries).2 in
  let pose := map_zip (c_gazeToBoard.read_pose pose_rows).1
                      (c_gazeToBoard.read_pose pose_rows).2 in
  c_gazeToBoard.returned r = Ok false /\
  c_gazeToBoard.written r =
    flat_map (fun k => omap (process_sample pose k (c_gazeToBoard.frame_ts_of timestamps k))
                            (map snd (filter (fun e => e.1 = k) entries)))
             (seqZ 0 (maxFrameIdx + 1)) /\
  (forall row, row ∈ c_gazeToBoard.written r <->
     exists e, e ∈ entries /\ (0 <= e.1)%Z /\
               process_sample pose e.1 (c_gazeToBoard.frame_ts_of timestamps e.1) e.2 = Some row).
Proof.
  intros Hne r m pose. subst r. unfold c_gazeToBoard.process.
  pose proof (read_gazes_max entries) as (Hm0 & Hmle & _). fold m in Hm0, Hmle.
  assert (Hfl : forall k, default [] ((c_gazeToBoard.read_gazes entries).1 !! k)
                          = c_gazeToBoard.samples_of_frame entries k)
    by apply default_samples_of_frame.
  destruct (c_gazeToBoard.read_gazes entries) as [gazes m'] eqn:Eg.
  cbn [fst snd] in *. subst m.
  destruct (c_gazeToBoard.read_pose pose_rows) as [rVec tVec] eqn:Ep.
  cbn [fst snd] in *. fold pose.
  rewrite process_frames_no_video by (done || apply seqZ_nonneg).
  cbn [c_gazeToBoard.returned c_gazeToBoard.written].
  assert (Hw : flat_map (fun k => omap (process_sample pose k (c_gazeToBoard.frame_ts_of timestamps k))
                                    (default [] (gazes !! k))) (seqZ 0 (m' + 1)) =
               flat_map (fun k => omap (process_sample pose k (c_gazeToBoard.frame_ts_of timestamps k))
                                    (map snd (filter (fun e => e.1 = k) entries)))
                        (seqZ 0 (m' + 1))).
  { apply flat_map_ext. intros k. by rewrite Hfl. }
  split; [done|]. split; [exact Hw|].
  intros row. rewrite Hw, list_elem_of_In, in_flat_map. split.
  - intros (k & Hk & Hrow). apply list_elem_of_In in Hk, Hrow.
    apply elem_of_seqZ in Hk. apply list_elem_of_omap in Hrow as (g & Hg & Hrow).
    apply list_elem_of_fmap in Hg as ([k' g'] & -> & Hg).
    apply list_elem_of_filter in Hg as [Hk' Hg]. cbn in Hk'. subst k'.
    exists (k, g'). cbn. split; [done|]. split; [lia|done].
  - intros ([k g] & He & Hk & Hrow). cbn [fst snd] in *.
    exists k. split; apply list_elem_of_In.
    + apply elem_of_seqZ. specialize (Hmle _ He). cbn in Hmle. lia.
    + apply list_elem_of_omap. exists g. split; [|done].
      apply list_elem_of_fmap. exists (k, g). split; [done|].
      by apply list_elem_of_filter.
Qed.

(** X8 (no frame time stamp): when [frameTimestamps.tsv] holds no time
    stamp, the run writes the warning for frame 0 and raises [IndexError]
    before any row is written, whatever the gaze data and the poses are;
    only with visualization on and a video that delivers no frame does it
    end without an exception, and without a row. *)
Theorem process_no_timestamps (entries : list (Z * c_gazeToBoard.Gaze))
    (pose_rows : list (Z * vec3 * vec3)) :
  let aborted := {| c_gazeToBoard.written := [];
                    c_gazeToBoard.warnings := [(0%Z, 0%Z)];
                    c_gazeToBoard.returned := Raise IndexError |} in
  process [] entries pose_rows None = aborted /\
  (forall k keys, process [] entries pose_rows (Some (k :: keys)) = aborted) /\
  process [] entries pose_rows (Some []) =
    {| c_gazeToBoard.written := []; c_gazeToBoard.warnings := [];
       c_gazeToBoard.returned := Ok false |}.
Proof.
  intros aborted. unfold c_gazeToBoard.process.
  pose proof (read_gazes_max entries) as (Hm0 & _ & _).
  destruct (c_gazeToBoard.read_gazes entries) as [gazes m]. cbn [snd] in Hm0.
  destruct (c_gazeToBoard.read_pose pose_rows) as [rVec tVec].
  rewrite seqZ_cons by lia.
  split; [done|]. split; [done|]. done.
Qed.

Lemma process_frames_video_prefix timestamps gazes pose keys frames :
  let v := process_frames timestamps gazes pose (Some keys) frames in
  let n := process_frames timestamps gazes pose None frames in
  c_gazeToBoard.written v `prefix_of` c_gazeToBoard.written n /\
  c_gazeToBoard.warnings v `prefix_of` c_gazeToBoard.warnings n /\
  (c_gazeToBoard.returned v = Ok true -> c_gazeToBoard.key_q ∈ keys) /\
  (forall e, c_gazeToBoard.returned v = Raise e ->
             c_gazeToBoard.returned n = Raise e).
Proof.
  revert keys. induction frames as [|k frames IH]; intros keys; cbn zeta.
  - cbn. repeat split; done.
  - cbn [c_gazeToBoard.process_frames c_gazeToBoard.cap_read].
    destruct keys as [|key keys].
    { cbn. repeat split; try done; apply prefix_nil. }
    destruct (Idx2Timestamp.result (Idx2Timestamp.get timestamps k)) as [t|e].
    2:{ cbn. repeat split; done. }
    specialize (IH keys). cbn zeta in IH. destruct IH as (Hw & Hs & Hq & He).
    destruct key; cbn [c_gazeToBoard.written c_gazeToBoard.warnings
                       c_gazeToBoard.returned].
    + repeat split; try done.
      * by apply prefix_app_r.
      * by apply prefix_app_r.
      * intros _. by left.
    + repeat split; try done.
      * by apply prefix_app_r.
      * by apply prefix_app_r.
    + repeat split; try done.
      * by apply prefix_app.
      * by apply prefix_app.
      * intros H. right. by apply Hq.
    + repeat split; try done.
      * by apply prefix_app.
      * by apply prefix_app.
      * intros H. right. by apply Hq.
Qed.

(** X9 (visualization): with visualization on, whatever keys are pressed and
    however many frames the video delivers, the rows and the warnings
    written are a prefix of those written without visualization; [True] is
    returned only if [q] was pressed, and an exception raised with
    visualization is raised without it too. *)
Theorem visualization_cuts_short (timestamps : list Q)
    (entries : list (Z * c_gazeToBoard.Gaze))
    (pose_rows : list (Z * vec3 * vec3)) (keys : list c_gazeToBoard.key) :
  let v := process timestamps entries pose_rows (Some keys) in
  let n := process timestamps entries pose_rows None in
  c_gazeToBoard.written v `prefix_of` c_gazeToBoard.written n /\
  c_gazeToBoard.warnings v `prefix_of` c_gazeToBoard.warnings n /\
  (c_gazeToBoard.returned v = Ok true -> c_gazeToBoard.key_q ∈ keys) /\
  (forall e, c_gazeToBoard.returned v = Raise e ->
             c_gazeToBoard.returned n = Raise e).
Proof.
  unfold c_gazeToBoard.process.
  destruct (c_gazeToBoard.read_gazes entries) as [gazes m].
  destruct (c_gazeToBoard.read_pose pose_rows) as [rVec tVec].
  apply process_frames_video_prefix.
Qed.

End frames.

Lemma process_rows_witness :
  c_gazeToBoard.returned
    (c_gazeToBoard.process Example.Rodrigues Example.np_sqrt (1 # 1000000)
       zeros3 zeros3 [0; 33; 66]%Q
       [(0%Z, Example.gaze); (1%Z, Example.gaze); ((-1)%Z, Example.gaze)]
       [(0%Z, Example.v3 0 0 0, Example.v3 0 0 2)] None) = Ok false /\
  length
    (c_gazeToBoard.written
       (c_gazeToBoard.process Example.Rodrigues Example.np_sqrt (1 # 1000000)
          zeros3 zeros3 [0; 33; 66]%Q
          [(0%Z, Example.gaze); (1%Z, Example.gaze); ((-1)%Z, Example.gaze)]
          [(0%Z, Example.v3 0 0 0, Example.v3 0 0 2)] None)) = 1%nat.
Proof.
  destruct (process_rows Example.Rodrigues Example.np_sqrt (1 # 1000000)
              zeros3 zeros3 [0; 33; 66]%Q
              [(0%Z, Example.gaze); (1%Z, Example.gaze); ((-1)%Z, Example.gaze)]
              [(0%Z, Example.v3 0 0 0, Example.v3 0 0 2)])
    as (Hret & Hw & _); [discriminate|].
  split; [exact Hret|]. rewrite Hw. vm_compute. reflexivity.
Defined.

(** ** The plane of the board and its coordinates *)

Section plane.

Variable Rodrigues : vec3 -> mat3.
Variable np_sqrt : float -> float.
Variable epsilon : Q.
Variables cameraRotation cameraPosition : vec3.

(** X10 (the columns of the plane): for a frame whose pose has a rotation
    matrix and a translation vector of finite entries, the row of a sample
    begins with the frame index and the two time stamps, then holds the
    translation vector as the point on the board and the third column of
    the rotation matrix as the normal of the board. *)
Theorem plane_columns (pose : gmap Z (vec3 * vec3)) (frame_idx : Z)
    (frame_ts : float) (gaze : c_gazeToBoard.Gaze) (rvec : vec3)
    (R : qmat3) (t : qvec3) :
  pose !! frame_idx = Some (rvec, of_qvec3 t) ->
  Rodrigues rvec = of_qmat3 R ->
  exists row,
    c_gazeToBoard.process_sample Rodrigues np_sqrt epsilon cameraRotation
      cameraPosition pose frame_idx frame_ts gaze = Some row /\
    take 3 row = [Fin (inject_Z frame_idx); frame_ts; c_gazeToBoard.ts gaze] /\
    Forall2 feq (take 3 (drop 3 row)) (c_gazeToBoard.list3 (of_qvec3 t)) /\
    Forall2 feq (take 3 (drop 6 row))
      (c_gazeToBoard.list3 (of_qvec3 (R.1.1.2, R.1.2.2, R.2.2))).
Proof.
  intros Hp HR. rewrite (process_sample_Some _ _ _ _ _ _ _ _ _ _ _ Hp).
  eexists. split; [reflexivity|].
  unfold c_gazeToBoard.ray_columns. rewrite HR.
  destruct R as [[[[a b] c] [[d e] f]] [[g h] i]]. destruct t as [[t1 t2] t3].
  cbn [of_qmat3 of_qvec3 matvec matvec34 dot fmul fadd fst snd
       c_gazeToBoard.list3 app take drop].
  unfold c_gazeToBoard.list3. cbn [fst snd].
  split; [done|]. split.
  - repeat (constructor; [cbn [feq]; ring|]). constructor.
  - repeat (constructor; [cbn [feq]; ring|]). constructor.
Qed.

End plane.

Lemma plane_columns_witness :
  exists row,
    c_gazeToBoard.process_sample Example.Rodrigues Example.np_sqrt (1 # 1000000)
      zeros3 zeros3 Example.pose 0 (Fin 33) Example.gaze = Some row /\
    take 3 row = [Fin (inject_Z 0); Fin 33; Fin 40] /\
    Forall2 feq (take 3 (drop 3 row)) [Fin 0; Fin 0; Fin 2] /\
    Forall2 feq (take 3 (drop 6 row)) [Fin 0; Fin 0; Fin 1].
Proof.
  apply (plane_columns Example.Rodrigues Example.np_sqrt (1 # 1000000)
           zeros3 zeros3 Example.pose 0 (Fin 33) Example.gaze
           (Example.v3 0 0 0) Example.identityQ (0, 0, 2)%Q); reflexivity.
Defined.

(** ** The data handed to the fixation classifier *)

Lemma collect_data_raises (gazeWorld : gazeWorld_t) (lo hi : Z) (e : exn) :
  e2.collect_data gazeWorld lo hi = Raise e <->
  e = RuntimeError /\
  e2.qHas lGaze2D gazeWorld && e2.qHas rGaze2D gazeWorld = false /\
  e2.qHas gaze2DRay gazeWorld = false /\
  e2.qHas gaze2DHomography gazeWorld = false.
Proof.
  unfold e2.collect_data.
  destruct (e2.qHas lGaze2D gazeWorld && e2.qHas rGaze2D gazeWorld);
    [split; [discriminate | intros (_ & ? & _); discriminate]|].
  destruct (e2.qHas gaze2DRay gazeWorld);
    [split; [discriminate | intros (_ & _ & ? & _); discriminate]|].
  destruct (e2.qHas gaze2DHomography gazeWorld);
    [split; [discriminate | intros (_ & _ & _ & ?); discriminate]|].
  split; [intros [= <-]; done | intros (-> & _); done].
Qed.

(** ** The average gaze point and the series for the classifier *)

Section average.

Variable Rodrigues : vec3 -> mat3.
Variable np_sqrt : float -> float.
Variable epsilon : Q.
Variables cameraRotation cameraPosition : vec3.

Abbreviation offsets_of frame_idx frame_ts rvec tvec gaze :=
  (c_gazeToBoard.offsets
     (c_gazeToBoard.gaze_on_board Rodrigues np_sqrt epsilon cameraRotation
        cameraPosition frame_idx frame_ts rvec tvec gaze)).

Lemma eyes_offsets_left rvec tvec gaze :
  c_gazeToBoard.eyes_offsets Rodrigues np_sqrt epsilon cameraRotation
    cameraPosition rvec tvec gaze !! "left" =
  let g := c_gazeToBoard.eye_gBoard Rodrigues epsilon cameraRotation
             cameraPosition rvec tvec
             (c_gazeToBoard.lGazeVec gaze) (c_gazeToBoard.lGazeOrigin gaze) in
  if isnan g.1.1 then None else Some (c_gazeToBoard.to_board Rodrigues rvec tvec g).
Proof.
  unfold c_gazeToBoard.eyes_offsets. cbv zeta.
  destruct (isnan (c_gazeToBoard.eye_gBoard _ _ _ _ _ _
                     (c_gazeToBoard.lGazeVec gaze) _).1.1),
           (isnan (c_gazeToBoard.eye_gBoard _ _ _ _ _ _
                     (c_gazeToBoard.rGazeVec gaze) _).1.1);
    by simplify_map_eq.
Qed.

Lemma eyes_offsets_right rvec tvec gaze :
  c_gazeToBoard.eyes_offsets Rodrigues np_sqrt epsilon cameraRotation
    cameraPosition rvec tvec gaze !! "right" =
  let g := c_gazeToBoard.eye_gBoard Rodrigues epsilon cameraRotation
             cameraPosition rvec tvec
             (c_gazeToBoard.rGazeVec gaze) (c_gazeToBoard.rGazeOrigin gaze) in
  if isnan g.1.1 then None else Some (c_gazeToBoard.to_board Rodrigues rvec tvec g).
Proof.
  unfold c_gazeToBoard.eyes_offsets. cbv zeta.
  destruct (isnan (c_gazeToBoard.eye_gBoard _ _ _ _ _ _
                     (c_gazeToBoard.lGazeVec gaze) _).1.1),
           (isnan (c_gazeToBoard.eye_gBoard _ _ _ _ _ _
                     (c_gazeToBoard.rGazeVec gaze) _).1.1);
    by simplify_map_eq.
Qed.

Lemma eyes_offsets_average rvec tvec gaze :
  c_gazeToBoard.eyes_offsets Rodrigues np_sqrt epsilon cameraRotation
    cameraPosition rvec tvec gaze !! "average" = None.
Proof.
  unfold c_gazeToBoard.eyes_offsets. cbv zeta.
  destruct (isnan (c_gazeToBoard.eye_gBoard _ _ _ _ _ _
                     (c_gazeToBoard.lGazeVec gaze) _).1.1),
           (isnan (c_gazeToBoard.eye_gBoard _ _ _ _ _ _
                     (c_gazeToBoard.rGazeVec gaze) _).1.1);
    by simplify_map_eq.
Qed.

(** The entry ["average"] of [offsets], from the intersections of the two
    eyes' rays with the board. *)
Lemma offsets_average frame_idx frame_ts rvec tvec gaze :
  let l := c_gazeToBoard.eye_gBoard Rodrigues epsilon cameraRotation
             cameraPosition rvec tvec
             (c_gazeToBoard.lGazeVec gaze) (c_gazeToBoard.lGazeOrigin gaze) in
  let r := c_gazeToBoard.eye_gBoard Rodrigues epsilon cameraRotation
             cameraPosition rvec tvec
             (c_gazeToBoard.rGazeVec gaze) (c_gazeToBoard.rGazeOrigin gaze) in
  offsets_of frame_idx frame_ts rvec tvec gaze !! "average" =
    if isnan l.1.1 || isnan r.1.1 then None
    else Some (c_gazeToBoard.mean2 (c_gazeToBoard.to_board Rodrigues rvec tvec l)
                                   (c_gazeToBoard.to_board Rodrigues rvec tvec r)).
Proof.
  intros l r.
  destruct (gaze_on_board_eyes Rodrigues np_sqrt epsilon cameraRotation
              cameraPosition frame_idx frame_ts rvec tvec gaze) as [_ ->].
  cbv zeta. rewrite eyes_offsets_left, eyes_offsets_right. cbv zeta.
  fold l r.
  destruct (isnan l.1.1), (isnan r.1.1); cbn [orb];
    rewrite ?eyes_offsets_average; try done.
  by rewrite lookup_insert_eq.
Qed.

End average.

(** C9 (as stated, refuted): a recording of two frames in which only the
    left eye has positions on the board.  With nothing else, the collection of the series
    for the fixation classifier raises [RuntimeError]; with positions of the
    3D gaze point as well, the series is made of those, [(0, 0)] here, and
    not of the left eye's [(-3, 0)].  The series is not computed from
    whichever eye has data. *)
Lemma one_eye_alone_is_not_used :
  e2.collect_data (Example.two_frames Example.sample_left) 0 10 =
    Raise RuntimeError /\
  e2.collect_data (Example.two_frames Example.sample_left_ray) 0 10 =
    Ok (e2.Average [Fin 40; Fin 60] [Fin 0; Fin 0] [Fin 0; Fin 0]).
Proof. split; reflexivity. Qed.

(** C9 (amended): for a sample of a frame with a pose, the entry
    ["average"] of [offsets] exists if and only if the rays of both eyes
    gave an intersection with the board (a first coordinate that is a
    number), and is then the mean of the two intersections in board space.
    The series for the fixation classifier are, over every sample of the
    interval: the positions of both eyes when each eye has a position that
    is a number somewhere in the recording; else those of the 3D gaze point
    when it has one; else those of the homography when it has one; else
    [RuntimeError] is raised. *)
Theorem average_and_series
    (Rodrigues : vec3 -> mat3) (np_sqrt : float -> float) (epsilon : Q)
    (cameraRotation cameraPosition : vec3)
    (frame_idx : Z) (frame_ts : float) (rvec tvec : vec3)
    (gaze : c_gazeToBoard.Gaze)
    (gazeWorld : gazeWorld_t) (lo hi : Z) :
  let l := c_gazeToBoard.eye_gBoard Rodrigues epsilon cameraRotation
             cameraPosition rvec tvec
             (c_gazeToBoard.lGazeVec gaze) (c_gazeToBoard.lGazeOrigin gaze) in
  let r := c_gazeToBoard.eye_gBoard Rodrigues epsilon cameraRotation
             cameraPosition rvec tvec
             (c_gazeToBoard.rGazeVec gaze) (c_gazeToBoard.rGazeOrigin gaze) in
  let o := c_gazeToBoard.offsets
             (c_gazeToBoard.gaze_on_board Rodrigues np_sqrt epsilon
                cameraRotation cameraPosition frame_idx frame_ts rvec tvec gaze) in
  let ss := samples (gazeWorldToAnal gazeWorld lo hi) in
  (is_Some (o !! "average") <-> isnan l.1.1 = false /\ isnan r.1.1 = false) /\
  (forall a, o !! "average" = Some a ->
     a = c_gazeToBoard.mean2 (c_gazeToBoard.to_board Rodrigues rvec tvec l)
                             (c_gazeToBoard.to_board Rodrigues rvec tvec r)) /\
  match e2.collect_data gazeWorld lo hi with
  | Ok (e2.LeftRight time L_X L_Y R_X R_Y) =>
      e2.qHas lGaze2D gazeWorld = true /\ e2.qHas rGaze2D gazeWorld = true /\
      time = map ts ss /\
      L_X = map (fun s => (lGaze2D s).1) ss /\
      L_Y = map (fun s => (lGaze2D s).2) ss /\
      R_X = map (fun s => (rGaze2D s).1) ss /\
      R_Y = map (fun s => (rGaze2D s).2) ss
  | Ok (e2.Average time X Y) =>
      e2.qHas lGaze2D gazeWorld && e2.qHas rGaze2D gazeWorld = false /\
      time = map ts ss /\
      ((e2.qHas gaze2DRay gazeWorld = true /\
        X = map (fun s => (gaze2DRay s).1) ss /\
        Y = map (fun s => (gaze2DRay s).2) ss) \/
       (e2.qHas gaze2DRay gazeWorld = false /\
        e2.qHas gaze2DHomography gazeWorld = true /\
        X = map (fun s => (gaze2DHomography s).1) ss /\
        Y = map (fun s => (gaze2DHomography s).2) ss))
  | Raise e =>
      e = RuntimeError /\
      e2.qHas lGaze2D gazeWorld && e2.qHas rGaze2D gazeWorld = false /\
      e2.qHas gaze2DRay gazeWorld = false /\
      e2.qHas gaze2DHomography gazeWorld = false
  end.
Proof.
  intros l r o ss. subst o.
  rewrite offsets_average. fold l r. cbv zeta.
  split; [|split].
  - destruct (isnan l.1.1), (isnan r.1.1); cbn [orb];
      (split; [intros [a Ha]; try discriminate; done
              |intros [? ?]; try discriminate; eauto]).
  - intros a. destruct (isnan l.1.1), (isnan r.1.1); cbn [orb];
      intros [= <-]; reflexivity.
  - unfold e2.collect_data. fold ss.
    destruct (e2.qHas lGaze2D gazeWorld), (e2.qHas rGaze2D gazeWorld);
      cbn [andb]; try done;
      destruct (e2.qHas gaze2DRay gazeWorld); try (by eauto 10);
      destruct (e2.qHas gaze2DHomography gazeWorld); by eauto 10.
Qed.

Lemma average_and_series_witness :
  (* both eyes on the board at (-3, 0) and (3, 0): their mean *)
  (exists a,
     c_gazeToBoard.offsets
       (c_gazeToBoard.gaze_on_board Example.Rodrigues Example.np_sqrt
          (1 # 1000000) zeros3 zeros3 0 (Fin 33)
          (Example.v3 0 0 0) (Example.v3 0 0 2) Example.gaze) !! "average"
     = Some a /\
     a = (fdiv (fadd (Fin (-3)) (Fin 3)) (Fin 2), fdiv (fadd (Fin 0) (Fin 0)) (Fin 2))) /\
  (* the left eye missing: no average *)
  ~ is_Some
      (c_gazeToBoard.offsets
         (c_gazeToBoard.gaze_on_board Example.Rodrigues Example.np_sqrt
            (1 # 1000000) zeros3 zeros3 0 (Fin 33)
            (Example.v3 0 0 0) (Example.v3 0 0 2)
            (c_gazeToBoard.without_left Example.gaze)) !! "average").
Proof.
  split.
  - destruct (average_and_series Example.Rodrigues Example.np_sqrt
                (1 # 1000000) zeros3 zeros3 0 (Fin 33)
                (Example.v3 0 0 0) (Example.v3 0 0 2) Example.gaze [] 0 0)
      as (Hiff & Hval & _).
    destruct (proj2 Hiff) as [a Ha]; [split; vm_compute; reflexivity|].
    exists a. split; [exact Ha|]. rewrite (Hval a Ha). vm_compute. reflexivity.
  - destruct (average_and_series Example.Rodrigues Example.np_sqrt
                (1 # 1000000) zeros3 zeros3 0 (Fin 33)
                (Example.v3 0 0 0) (Example.v3 0 0 2)
                (c_gazeToBoard.without_left Example.gaze) [] 0 0)
      as (Hiff & _ & _).
    intros H. apply (proj1 Hiff) in H. destruct H as [H _].
    vm_compute in H. discriminate H.
Defined.

(** ** Offsets to the targets *)

Lemma frameIdxs_elem (gazeWorld : gazeWorld_t) (k : Z) :
  k ∈ frameIdxs gazeWorld -> exists v, (k, v) ∈ gazeWorld.
Proof.
  unfold frameIdxs. rewrite list_elem_of_In, in_flat_map.
  intros ([k' v] & Hin & Hk). apply in_map_iff in Hk as (_ & <- & _).
  exists v. by apply list_elem_of_In.
Qed.

(** The samples of an interval are those of the frames from its first to
    its last. *)
Lemma frameIdxs_gazeWorldToAnal (gazeWorld : gazeWorld_t) (lo hi : Z) (s : nat) (k : Z) :
  frameIdxs (gazeWorldToAnal gazeWorld lo hi) !! s = Some k ->
  (lo <= k <= hi)%Z.
Proof.
  intros Hs. apply list_elem_of_lookup_2 in Hs.
  apply frameIdxs_elem in Hs as [v Hv].
  unfold gazeWorldToAnal in Hv. by apply list_elem_of_filter in Hv as [? _].
Qed.

Section offsets.

Variable Rodrigues : vec3 -> mat3.
Variable angle_between : vec3 -> vec3 -> float.
Variables atan2 : float -> float -> float.
Variables cos sin : float -> float.

Abbreviation sample_offset :=
  (e1.sample_offset Rodrigues angle_between atan2 cos sin).
Abbreviation target_offset := (e1.target_offset angle_between atan2 cos sin).

Lemma offset_lookup pose targets gazeWorld lo hi (s : nat) k smp :
  frameIdxs (gazeWorldToAnal gazeWorld lo hi) !! s = Some k ->
  samples (gazeWorldToAnal gazeWorld lo hi) !! s = Some smp ->
  e1.offset Rodrigues angle_between atan2 cos sin pose targets gazeWorld lo hi !! s
    = Some (sample_offset pose targets k smp).
Proof.
  intros Hk Hs. unfold e1.offset. cbv zeta.
  rewrite lookup_zip_with, Hk. cbn. by rewrite Hs.
Qed.

Lemma sample_offset_no_pose pose targets k smp :
  pose !! k = None ->
  sample_offset pose targets k smp = replicate 4 (replicate (length targets) nan2).
Proof. intros Hp. unfold e1.sample_offset. by rewrite Hp. Qed.

Lemma sample_offset_pose pose targets k smp rvec tvec (e ti : nat) t :
  pose !! k = Some (rvec, tvec) -> (e < 4)%nat -> targets !! ti = Some t ->
  sample_offset pose targets k smp !! e ≫= (.!! ti) =
    Some (target_offset (Rodrigues rvec) tvec
            (e1.method e smp).1.1 (e1.method e smp).1.2 (e1.method e smp).2 t.2).
Proof.
  intros Hp He Ht. unfold e1.sample_offset. rewrite Hp.
  rewrite list_lookup_fmap, lookup_seq_lt by done. cbn [fmap option_fmap option_map mbind option_bind plus].
  destruct (e1.method e smp) as [[ori gaze] gazeBoard].
  rewrite list_lookup_fmap, Ht. reflexivity.
Qed.

Lemma method_origin (e : nat) (smp : GazeWorld) :
  (e1.method e smp).1.1 = e1.spec_origin e smp.
Proof. by destruct e as [|[|[|e]]]. Qed.

End offsets.

(** C6 (as stated, refuted): a sample with all its gaze data, inside the
    interval of frames 0 to 10, whose frame, 3, has no pose.  Whatever the
    library functions compute, the offsets of the four methods to the target
    are left not-a-number: none is computed from an angle. *)
Lemma offsets_unset_without_pose :
  ~ (exists (Rodrigues : vec3 -> mat3) (angle_between : vec3 -> vec3 -> float)
       (atan2 : float -> float -> float) (cos sin : float -> float),
       e1.offset Rodrigues angle_between atan2 cos sin
         ∅ Example.targets [(3%Z, [Example.sample_all])] 0 10
       <> [[[nan2]; [nan2]; [nan2]; [nan2]]]).
Proof. intros (R & ab & at2 & c & s & H). by apply H. Qed.

(** C6 (amended): for every sample inside an analysis interval whose frame
    has a pose, every projection method and every target, the offset is
    the angle at the method's origin (the eye for the two eyes, the zero
    vector for the 3D gaze point and the homography) between the target,
    taken to camera space by the pose, and the gaze point, times the cosine
    and the sine of the bearing on the board from the target to the gaze
    point; for a sample whose frame has no pose it is not-a-number. *)
Theorem offset_of_sample
    (Rodrigues : vec3 -> mat3) (angle_between : vec3 -> vec3 -> float)
    (atan2 : float -> float -> float) (cos sin : float -> float)
    (pose : gmap Z (vec3 * vec3)) (targets : list (Z * vec2))
    (gazeWorld : gazeWorld_t) (lo hi : Z)
    (s e ti : nat) (k : Z) (smp : GazeWorld) (t : Z * vec2) :
  frameIdxs (gazeWorldToAnal gazeWorld lo hi) !! s = Some k ->
  samples (gazeWorldToAnal gazeWorld lo hi) !! s = Some smp ->
  (e < 4)%nat ->
  targets !! ti = Some t ->
  (lo <= k <= hi)%Z /\
  e1.entry
    (e1.offset Rodrigues angle_between atan2 cos sin pose targets gazeWorld lo hi)
    s e ti =
  Some match pose !! k with
       | Some (rvec, tvec) =>
           e1.spec_offset angle_between atan2 cos sin
             (e1.spec_origin e smp)
             (matvec34 (Rodrigues rvec) tvec (t.2.1, t.2.2, Fin 0) (Fin 1))
             (e1.method e smp).1.2 (e1.method e smp).2 t.2
       | None => nan2
       end.
Proof.
  intros Hk Hs He Ht. split; [by eapply frameIdxs_gazeWorldToAnal|].
  unfold e1.entry.
  erewrite offset_lookup by eassumption.
  cbn [mbind option_bind].
  destruct (pose !! k) as [[rvec tvec]|] eqn:Hp.
  - rewrite <- method_origin.
    etrans; [by eapply sample_offset_pose | reflexivity].
  - rewrite sample_offset_no_pose by done.
    rewrite lookup_replicate_2 by done. cbn [mbind option_bind].
    rewrite lookup_replicate_2; [done|].
    by apply lookup_lt_Some in Ht.
Qed.

Lemma offset_of_sample_witness :
  (* the 3D gaze point on the target, seen from the camera: offset zero *)
  e1.entry
    (e1.offset Example.Rodrigues Example.angle_between Example.atan2
       Example.cos Example.sin Example.pose Example.targets
       [(0%Z, [Example.sample_all])] 0 10) 0 2 0
  = Some (fmul (Fin 0) (Fin 1), fmul (Fin 0) (Fin 0)).
Proof.
  destruct (offset_of_sample Example.Rodrigues Example.angle_between
              Example.atan2 Example.cos Example.sin Example.pose
              Example.targets [(0%Z, [Example.sample_all])] 0 10
              0 2 0 0 Example.sample_all (5%Z, Example.pt 0 0))
    as [_ H]; [reflexivity | reflexivity | lia | reflexivity |].
  rewrite H. vm_compute. reflexivity.
Defined.




(** ** Arrays in row-major order *)

Lemma length_concat_uniform {A} (m : nat) (ls : list (list A)) :
  Forall (fun l => length l = m) ls ->
  length (concat ls) = (length ls * m)%nat.
Proof.
  induction 1 as [|l ls Hl _ IH]; [done|].
  cbn. rewrite length_app, IH, Hl. lia.
Qed.

Lemma lookup_concat_uniform {A} (m : nat) (ls : list (list A)) (i j : nat)
    (l : list A) (x : A) :
  Forall (fun l => length l = m) ls ->
  ls !! i = Some l -> l !! j = Some x ->
  concat ls !! (i * m + j)%nat = Some x.
Proof.
  intros H. revert i. induction H as [|l0 ls Hl0 _ IH]; intros [|i] Hi Hj;
    try done.
  - cbn in Hi. injection Hi as ->. cbn. by apply lookup_app_l_Some.
  - cbn in Hi. cbn [concat].
    rewrite lookup_app_r by (rewrite Hl0; lia).
    replace (S i * m + j - length l0)%nat with (i * m + j)%nat by (rewrite Hl0; lia).
    by apply IH.
Qed.

Lemma shaped_concat {A} (n m k : nat) (a : list (list (list A))) :
  shaped n m k a ->
  length (concat a) = (n * m)%nat /\ Forall (fun r => length r = k) (concat a).
Proof.
  intros [Hn Ha]. split.
  - rewrite <- Hn. apply length_concat_uniform.
    eapply Forall_impl; [exact Ha|]. by intros b [? _].
  - clear Hn. induction Ha as [|b a [_ Hb] _ IH]; [constructor|].
    cbn. by apply Forall_app.
Qed.

Lemma reshape_rows_length {A} (n m k : nat) (a : list (list (list A))) :
  shaped n m k a -> length (e1.reshape_rows a) = (n * m * k)%nat.
Proof.
  intros H. destruct (shaped_concat n m k a H) as [Hl Hr].
  unfold e1.reshape_rows. by rewrite (length_concat_uniform k), Hl.
Qed.

Lemma reshape_rows_lookup {A} (n m k : nat) (a : list (list (list A)))
    (s e ti : nat) (b : list (list A)) (r : list A) (x : A) :
  shaped n m k a ->
  a !! s = Some b -> b !! e = Some r -> r !! ti = Some x ->
  e1.reshape_rows a !! ((s * m + e) * k + ti)%nat = Some x.
Proof.
  intros H Hb Hr Hx. destruct (shaped_concat n m k a H) as [_ Hrows].
  unfold e1.reshape_rows.
  apply (lookup_concat_uniform k _ _ _ r); [done| |done].
  apply (lookup_concat_uniform m _ _ _ b); [|done|done].
  destruct H as [_ Ha]. eapply Forall_impl; [exact Ha|]. by intros ? [? _].
Qed.

(** ** The cartesian product *)

Lemma zip_with_map_map {A B C D} (f : B -> C -> D) (g : A -> B) (h : A -> C)
    (l : list A) :
  zip_with f (map g l) (map h l) = map (fun x => f (g x) (h x)) l.
Proof. induction l; [done|]. cbn. by f_equal. Qed.

Lemma cartesian_product_eq {A} (x0 x1 x2 : list A) :
  e1.cartesian_product x0 x1 x2 =
  e1.reshape_rows
    (map (fun b => map (fun a => map (fun c => (a, b, c)) x2) x0) x1).
Proof.
  unfold e1.cartesian_product, e1.meshgrid, e1.stack_last. f_equal.
  rewrite !zip_with_map_map. apply map_ext. intros b.
  rewrite !zip_with_map_map. apply map_ext. intros a.
  rewrite zip_with_map_map.
  rewrite <- (map_id x2) at 2. rewrite zip_with_map_map. done.
Qed.

Lemma cartesian_product_shaped {A} (x0 x1 x2 : list A) :
  shaped (length x1) (length x0) (length x2)
    (map (fun b => map (fun a => map (fun c => (a, b, c)) x2) x0) x1).
Proof.
  split; [by rewrite length_map|].
  apply Forall_forall. intros blk (b & -> & _)%list_elem_of_fmap.
  split; [by rewrite length_map|].
  apply Forall_forall. intros r (a & -> & _)%list_elem_of_fmap.
  by rewrite length_map.
Qed.

Lemma elem_of_concat {A} (x : A) (ls : list (list A)) :
  x ∈ concat ls <-> exists l, x ∈ l /\ l ∈ ls.
Proof.
  rewrite list_elem_of_In, in_concat. split.
  - intros (l & Hl & Hx). exists l. by rewrite !list_elem_of_In.
  - intros (l & Hx & Hl). exists l. by rewrite <- !list_elem_of_In.
Qed.

Lemma cartesian_product_elem {A} (x0 x1 x2 : list A) (a b c : A) :
  (a, b, c) ∈ e1.cartesian_product x0 x1 x2 -> a ∈ x0 /\ b ∈ x1 /\ c ∈ x2.
Proof.
  rewrite cartesian_product_eq. unfold e1.reshape_rows.
  intros (r & Hr & (blk & Hblk & Hb)%elem_of_concat)%elem_of_concat.
  apply list_elem_of_fmap in Hb as (b' & -> & Hb').
  apply list_elem_of_fmap in Hblk as (a' & -> & Ha').
  apply list_elem_of_fmap in Hr as (c' & [= -> -> ->] & Hc').
  done.
Qed.

(** ** The table of offsets *)

Lemma mapM_res_Ok {A B} (f : A -> res B) (l : list A) :
  (forall x, x ∈ l -> exists y, f x = Ok y) ->
  exists ys, mapM f l = Ok ys /\ length ys = length l /\
    forall i x, l !! i = Some x -> exists y, f x = Ok y /\ ys !! i = Some y.
Proof.
  induction l as [|x l IH]; intros H.
  - exists []. by cbn.
  - destruct (H x) as [y Hy]; [by left|].
    destruct IH as (ys & Hys & Hl & Hlook); [intros x' Hx'; apply H; by right|].
    exists (y :: ys). cbn [mapM]. rewrite Hy. cbn [mbind res_bind].
    rewrite Hys. cbn [mbind res_bind mret res_ret].
    split; [done|]. split; [cbn; lia|].
    intros [|i] x' Hi.
    + injection Hi as <-. by exists y.
    + by apply Hlook.
Qed.

Lemma frameIdxs_length (gazeWorld : gazeWorld_t) :
  length (frameIdxs gazeWorld) = length (samples gazeWorld).
Proof.
  unfold frameIdxs, samples. induction gazeWorld as [|[k v] gw IH]; [done|].
  cbn. by rewrite !length_app, length_map, IH.
Qed.

Section table.

Variable Rodrigues : vec3 -> mat3.
Variable angle_between : vec3 -> vec3 -> float.
Variable atan2 : float -> float -> float.
Variable cos : float -> float.
Variable sin : float -> float.

Abbreviation offset := (e1.offset Rodrigues angle_between atan2 cos sin).
Abbreviation sample_offset := (e1.sample_offset Rodrigues angle_between atan2 cos sin).
Abbreviation process_interval :=
  (e1.process_interval Rodrigues angle_between atan2 cos sin).

Lemma sample_offset_shape pose targets k smp :
  length (sample_offset pose targets k smp) = 4%nat /\
  Forall (fun r => length r = length targets) (sample_offset pose targets k smp).
Proof.
  unfold e1.sample_offset. destruct (pose !! k) as [[rvec tvec]|].
  - split; [done|]. apply Forall_forall.
    intros r (e & -> & _)%list_elem_of_fmap.
    destruct (e1.method e smp) as [[ori gaze] gazeBoard]. by rewrite length_map.
  - split; [done|]. repeat constructor; by rewrite length_replicate.
Qed.

Lemma offset_shaped pose targets gazeWorld lo hi :
  shaped (length (samples (gazeWorldToAnal gazeWorld lo hi))) 4 (length targets)
         (offset pose targets gazeWorld lo hi).
Proof.
  unfold e1.offset. split.
  - rewrite length_zip_with, frameIdxs_length. lia.
  - apply Forall_forall. intros b Hb.
    apply list_elem_of_lookup in Hb as [i Hi].
    apply lookup_zip_with_Some in Hi as (k & smp & -> & _ & _).
    apply sample_offset_shape.
Qed.

Lemma process_interval_rows pose (targets : list (Z * vec2))
    (gazeWorld : gazeWorld_t) (lo hi : Z) (ival : nat) :
  let ss := samples (gazeWorldToAnal gazeWorld lo hi) in
  ss <> [] -> targets <> [] ->
  exists table,
    process_interval pose targets gazeWorld lo hi ival = Ok table /\
    length table = (length ss * 4 * length targets)%nat /\
    forall (s e ti : nat) smp name t,
      ss !! s = Some smp -> e1.eye_names !! e = Some name ->
      targets !! ti = Some t ->
      exists v,
        e1.entry (offset pose targets gazeWorld lo hi) s e ti = Some v /\
        table !! ((s * 4 + e) * length targets + ti)%nat =
          Some {| e1.timestamp := ts smp;
                  e1.marker_interval := Z.of_nat ival + 1;
                  e1.eye := name; e1.target := t.1; e1.offset_xy := v |}.
Proof.
  intros ss Hss Htargets.
  pose proof (offset_shaped pose targets gazeWorld lo hi) as Hshape. fold ss in Hshape.
  set (off := offset pose targets gazeWorld lo hi) in *.
  assert (Hlen_off : length off = length ss) by apply Hshape.
  unfold e1.process_interval. fold ss. fold off.
  set (dat := e1.cartesian_product _ _ _).
  set (f := fun '(e, s, t, o) => _).
  assert (Hdat_shape : shaped (length off) 4 (length targets)
            (map (fun b => map (fun a => map (fun c => (a, b, c)) (map fst targets))
                               (seqZ 0 4))
                 (seqZ 0 (Z.of_nat (length off))))).
  { pose proof (cartesian_product_shaped (seqZ 0 4) (seqZ 0 (Z.of_nat (length off)))
                  (map fst targets)) as H.
    rewrite !length_seqZ, length_map, Nat2Z.id in H. exact H. }
  assert (Hdat_len : length dat = (length ss * 4 * length targets)%nat).
  { subst dat. rewrite cartesian_product_eq, <- Hlen_off.
    by apply reshape_rows_length. }
  assert (Hoff_len : length (e1.reshape_rows off) = (length ss * 4 * length targets)%nat)
    by (by apply reshape_rows_length).
  destruct (mapM_res_Ok f (zip dat (e1.reshape_rows off))) as (table & Htab & Hl & Hlook).
  { intros [[[e' s'] t'] o] Hin.
    apply elem_of_zip_l in Hin. subst dat.
    apply cartesian_product_elem in Hin as (He' & Hs'' & _).
    apply elem_of_seqZ in He', Hs''. subst f. cbn beta iota.
    destruct (lookup_lt_is_Some_2 (map ts ss) (Z.to_nat s')) as [ts' Hts'].
    { rewrite length_map. lia. }
    rewrite (py_getitem_nonneg _ _ ts') by (done || lia).
    destruct (lookup_lt_is_Some_2 e1.eye_names (Z.to_nat e')) as [n' Hn'].
    { cbn. lia. }
    rewrite (py_getitem_nonneg _ _ n') by (done || lia).
    by eexists. }
  exists table. split; [destruct ss, targets; done|].
  split; [rewrite Hl, length_zip_with; lia|].
  intros s e ti smp name t Hs He Ht.
  assert (He4 : (e < 4)%nat) by (apply lookup_lt_Some in He; cbn in He; lia).
  assert (Hs' : (s < length off)%nat).
  { rewrite Hlen_off. by apply lookup_lt_Some in Hs. }
  destruct (lookup_lt_is_Some_2 off s Hs') as [blk Hblk].
  assert (Hblk4 : length blk = 4%nat /\ Forall (fun r => length r = length targets) blk).
  { destruct Hshape as [_ Hall]. rewrite Forall_lookup in Hall. by eapply Hall. }
  destruct Hblk4 as [Hblk4 Hrows].
  destruct (lookup_lt_is_Some_2 blk e) as [row Hrow]; [lia|].
  assert (Hrowl : length row = length targets).
  { rewrite Forall_lookup in Hrows. by eapply Hrows. }
  destruct (lookup_lt_is_Some_2 row ti) as [v Hv].
  { rewrite Hrowl. by apply lookup_lt_Some in Ht. }
  assert (Hdat : dat !! ((s * 4 + e) * length targets + ti)%nat =
                 Some (Z.of_nat e, Z.of_nat s, t.1)).
  { subst dat. rewrite cartesian_product_eq.
    eapply reshape_rows_lookup; [exact Hdat_shape| | |].
    - rewrite list_lookup_fmap, lookup_seqZ_lt by lia. reflexivity.
    - cbn beta. rewrite list_lookup_fmap, lookup_seqZ_lt by lia. reflexivity.
    - cbn beta. rewrite !list_lookup_fmap, Ht. cbn. do 3 f_equal; lia. }
  assert (Hoff : e1.reshape_rows off !! ((s * 4 + e) * length targets + ti)%nat = Some v)
    by (by eapply reshape_rows_lookup).
  exists v. split; [unfold e1.entry; by rewrite Hblk; cbn; rewrite Hrow|].
  destruct (Hlook ((s * 4 + e) * length targets + ti)%nat
              (Z.of_nat e, Z.of_nat s, t.1, v)) as (y & Hy & ->).
  { by rewrite lookup_zip_with, Hdat, Hoff. }
  f_equal. subst f. cbn beta iota in Hy.
  rewrite (py_getitem_nonneg _ _ (ts smp)) in Hy
    by (lia || by rewrite Nat2Z.id, list_lookup_fmap, Hs).
  rewrite (py_getitem_nonneg _ _ name) in Hy by (lia || by rewrite Nat2Z.id).
  cbn in Hy. by injection Hy as <-.
Qed.

(** X13 (the rows of [gazeTargetOffset.tsv]): the order of
    [cartesian_product] is the row-major order of the array [offset].  For
    sample [s], method [e] and target number [ti], row
    [(s*4 + e)*T + ti] of the table, [T] being the number of targets, holds
    the time stamp of sample [s], the name of method [e], the identifier of
    target [ti] and the offset [offset[s,e,ti]]. *)
Theorem table_rows_aligned pose (targets : list (Z * vec2))
    (gazeWorld : gazeWorld_t) (lo hi : Z) (ival : nat)
    (s e ti : nat) (smp : GazeWorld) (name : string) (t : Z * vec2) :
  let ss := samples (gazeWorldToAnal gazeWorld lo hi) in
  ss !! s = Some smp -> e1.eye_names !! e = Some name -> targets !! ti = Some t ->
  exists table v,
    process_interval pose targets gazeWorld lo hi ival = Ok table /\
    e1.entry (offset pose targets gazeWorld lo hi) s e ti = Some v /\
    table !! ((s * 4 + e) * length targets + ti)%nat =
      Some {| e1.timestamp := ts smp;
              e1.marker_interval := Z.of_nat ival + 1;
              e1.eye := name; e1.target := t.1; e1.offset_xy := v |}.
Proof.
  intros ss Hs He Ht.
  destruct (process_interval_rows pose targets gazeWorld lo hi ival)
    as (table & Htab & _ & Hrows).
  { fold ss. by destruct ss. }
  { by destruct targets. }
  destruct (Hrows s e ti smp name t Hs He Ht) as (v & Hv & Hrow).
  by exists table, v.
Qed.

(** X14 (the outcomes of an interval): the body of the loop over the
    intervals raises [ValueError] exactly when the interval holds no
    sample, [IndexError] exactly when it holds samples and there is no
    target, and in every other case gives a table of [n * 4 * T] rows for
    [n] samples and [T] targets. *)
Theorem process_interval_outcome pose (targets : list (Z * vec2))
    (gazeWorld : gazeWorld_t) (lo hi : Z) (ival : nat) :
  let ss := samples (gazeWorldToAnal gazeWorld lo hi) in
  let r := process_interval pose targets gazeWorld lo hi ival in
  (ss = [] <-> r = Raise ValueError) /\
  (ss <> [] /\ targets = [] <-> r = Raise IndexError) /\
  (ss <> [] /\ targets <> [] <->
   exists table, r = Ok table /\
                 length table = (length ss * 4 * length targets)%nat).
Proof.
  intros ss r.
  destruct (decide (ss = [])) as [Hs|Hs].
  { subst r. unfold e1.process_interval. fold ss. rewrite Hs.
    split; [done|]. split; [by split; [intros [? _]|]|].
    split; [by intros [? _]|by intros (? & ? & _)]. }
  destruct (decide (targets = [])) as [Ht|Ht].
  { subst r. unfold e1.process_interval. fold ss. rewrite Ht.
    destruct ss; [done|].
    split; [done|]. split; [done|].
    split; [by intros [_ ?]|by intros (? & ? & _)]. }
  destruct (process_interval_rows pose targets gazeWorld lo hi ival Hs Ht)
    as (table & Htab & Hl & _).
  subst r. rewrite Htab. split; [done|]. split; [by split; [intros [_ ?]|]|].
  split; [|done]. intros _. by exists table.
Qed.

End table.

Lemma table_rows_aligned_witness :
  exists table v,
    e1.process_interval Example.Rodrigues Example.angle_between Example.atan2
      Example.cos Example.sin Example.pose Example.targets
      [(0%Z, [Example.sample_all])] 0 10 0 = Ok table /\
    e1.entry (e1.offset Example.Rodrigues Example.angle_between Example.atan2
                Example.cos Example.sin Example.pose Example.targets
                [(0%Z, [Example.sample_all])] 0 10) 0 2 0 = Some v /\
    table !! ((0 * 4 + 2) * length Example.targets + 0)%nat =
      Some {| e1.timestamp := Fin 40; e1.marker_interval := 0 + 1;
              e1.eye := "ray"; e1.target := 5; e1.offset_xy := v |}.
Proof.
  apply (table_rows_aligned Example.Rodrigues Example.angle_between Example.atan2
           Example.cos Example.sin Example.pose Example.targets
           [(0%Z, [Example.sample_all])] 0 10 0 0 2 0
           Example.sample_all "ray" (5%Z, Example.pt 0 0)); reflexivity.
Defined.

(** ** Missing data, from the markers to the classifier *)

Lemma to_board_nan3 (Rodrigues : vec3 -> mat3) (rvec tvec : vec3) :
  c_gazeToBoard.to_board Rodrigues rvec tvec nan3 = nan2.
Proof. unfold c_gazeToBoard.to_board. cbv zeta. by rewrite matvec34_nan3. Qed.

(** A ray along the plane, within the tolerance: no intersection. *)
Lemma intersect_plane_ray_parallel (epsilon : Q) (n p d o : vec3) :
  fltb (fabs (dot n d)) (Fin epsilon) = true ->
  utils.intersect_plane_ray epsilon n p d o = nan3.
Proof. intros H. unfold utils.intersect_plane_ray. cbv zeta. by rewrite H. Qed.

Section degenerate.

Variable Rodrigues : vec3 -> mat3.
Variable np_sqrt : float -> float.
Variable epsilon : Q.
Variables cameraRotation cameraPosition : vec3.

Lemma eye_columns_parallel rvec tvec gVec gOri :
  fltb (fabs (dot (matvec (Rodrigues rvec) (Fin 0, Fin 0, Fin 1))
                  (matvec34 (Rodrigues cameraRotation) cameraPosition gVec (Fin 1))))
       (Fin epsilon) = true ->
  drop 3 (c_gazeToBoard.eye_columns Rodrigues epsilon cameraRotation
            cameraPosition rvec tvec gVec gOri) = replicate 5 NaN.
Proof.
  intros H. unfold c_gazeToBoard.eye_columns, c_gazeToBoard.eye_gBoard.
  cbv zeta. by rewrite intersect_plane_ray_parallel.
Qed.

Lemma ray_columns_parallel frame_idx frame_ts rvec tvec gaze :
  fltb (fabs (dot (matvec (Rodrigues rvec) (Fin 0, Fin 0, Fin 1))
                  (c_gazeToBoard.normalize np_sqrt
                     (matvec (Rodrigues cameraRotation)
                             (c_gazeToBoard.world3D gaze)))))
       (Fin epsilon) = true ->
  drop 9 (c_gazeToBoard.ray_columns Rodrigues np_sqrt epsilon cameraRotation
            frame_idx frame_ts rvec tvec gaze) = replicate 5 NaN.
Proof.
  intros H. unfold c_gazeToBoard.ray_columns, c_gazeToBoard.ray_gBoard.
  cbv zeta. rewrite intersect_plane_ray_parallel by done.
  by rewrite to_board_nan3.
Qed.

Lemma process_returns timestamps entries pose_rows :
  timestamps <> [] ->
  c_gazeToBoard.returned
    (c_gazeToBoard.process Rodrigues np_sqrt epsilon cameraRotation
       cameraPosition timestamps entries pose_rows None) = Ok false.
Proof.
  intros Hne. unfold c_gazeToBoard.process.
  destruct (c_gazeToBoard.read_gazes entries) as [gazes m].
  destruct (c_gazeToBoard.read_pose pose_rows) as [rVec tVec].
  by rewrite process_frames_no_video by (done || apply seqZ_nonneg).
Qed.

End degenerate.




(** ** The order of the floats and [np.argmin] *)

Lemma fle_refl (x : float) : fle x x.
Proof.
  destruct x as [| | |q]; try done.
  unfold fle. cbn. apply negb_false_iff, Qle_bool_iff, Qle_refl.
Qed.

Lemma fle_trans (x y z : float) :
  isnan y = false -> fle x y -> fle y z -> fle x z.
Proof.
  unfold fle.
  destruct x as [| | |a], y as [| | |b], z as [| | |c]; cbn; try done.
  rewrite !negb_false_iff, !Qle_bool_iff. intros _ ? ?. by eapply Qle_trans.
Qed.

Lemma fltb_fle (x y : float) : fltb x y = true -> fle x y.
Proof.
  unfold fle. destruct x as [| | |a], y as [| | |b]; cbn; try done.
  rewrite negb_true_iff, negb_false_iff, Qle_bool_iff.
  intros H. destruct (Qlt_le_dec a b) as [Hlt|Hle].
  - by apply Qlt_le_weak.
  - apply Qle_bool_iff in Hle. congruence.
Qed.

Lemma argmin_from_spec (pre l : list float) (best : float) (ibest : nat) :
  pre !! ibest = Some best ->
  isnan best = false ->
  Forall (fun x => isnan x = false) l ->
  Forall (fle best) pre ->
  exists v,
    (pre ++ l) !! e2.argmin_from best ibest (length pre) l = Some v /\
    Forall (fle v) (pre ++ l).
Proof.
  revert pre best ibest. induction l as [|x l IH]; intros pre best ibest Hb Hn Hl Hpre.
  - exists best. rewrite app_nil_r. by cbn.
  - apply Forall_cons in Hl as [Hx Hl]. cbn [e2.argmin_from].
    rewrite Hn, Hx. cbn [orb].
    replace (pre ++ x :: l) with ((pre ++ [x]) ++ l) by by rewrite <- app_assoc.
    replace (S (length pre)) with (length (pre ++ [x]))
      by (rewrite length_app; cbn; lia).
    destruct (fltb x best) eqn:Hlt.
    + apply IH; [|done|done|].
      * by rewrite lookup_app_r, Nat.sub_diag by lia.
      * apply Forall_app. split; [|by repeat constructor; apply fle_refl].
        eapply Forall_impl; [exact Hpre|]. intros p Hp. cbn beta in Hp.
        eapply fle_trans; [exact Hn| |exact Hp]. by apply fltb_fle.
    + apply IH; [|done|done|].
      * apply lookup_app_l_Some. exact Hb.
      * apply Forall_app. split; [done|]. by repeat constructor.
Qed.

(** On a list that is not empty and holds no not-a-number, [np.argmin]
    returns the index of an entry that no entry is below. *)
Lemma argmin_spec (l : list float) :
  l <> [] -> Forall (fun x => isnan x = false) l ->
  exists r v, e2.argmin l = Ok r /\ l !! r = Some v /\ Forall (fle v) l.
Proof.
  destruct l as [|x l]; [done|]. intros _ Hl.
  apply Forall_cons in Hl as [Hx Hl].
  destruct (argmin_from_spec [x] l x 0) as (v & Hv & Hmin);
    [done|done|done|by repeat constructor; apply fle_refl|].
  exists (e2.argmin_from x 0 1 l), v. by cbn.
Qed.

(** ** The frequency told to the classifier *)


(** ** One step of the selection *)

Lemma forallb_id_false (used : list bool) (j : nat) :
  used !! j = Some false -> forallb id used = false.
Proof.
  revert j. induction used as [|u used IH]; intros [|j]; cbn; try done.
  - by intros [= ->].
  - intros H. rewrite (IH j H). by destruct u.
Qed.

Section step.

Variable hypot : Q -> Q -> Q.

Abbreviation dist_to := (e2.dist_to hypot).
Abbreviation masked := (e2.masked hypot).

Lemma masked_lookup (fix_ : list e2.fixation) (used : list bool)
    (target : Q * Q) (j : nat) (f : e2.fixation) (u : bool) :
  fix_ !! j = Some f -> used !! j = Some u ->
  masked fix_ used target !! j =
    Some (if negb (e2.long_enough f) then PInf
          else if u then PInf else Fin (dist_to f target)).
Proof.
  intros Hf Hu. unfold e2.masked, e2.set_inf, e2.distances.
  rewrite !lookup_zip_with, !list_lookup_fmap, Hf, Hu. reflexivity.
Qed.

Lemma masked_length (fix_ : list e2.fixation) (used : list bool) (target : Q * Q) :
  length used = length fix_ -> length (masked fix_ used target) = length fix_.
Proof.
  intros H. unfold e2.masked, e2.set_inf, e2.distances.
  rewrite !length_zip_with, !length_map. lia.
Qed.

Lemma masked_no_nan (fix_ : list e2.fixation) (used : list bool) (target : Q * Q) :
  Forall (fun x => isnan x = false) (masked fix_ used target).
Proof.
  apply Forall_lookup. intros j x Hx.
  unfold e2.masked, e2.set_inf, e2.distances in Hx.
  rewrite !lookup_zip_with, !list_lookup_fmap in Hx.
  destruct (fix_ !! j) as [f|]; [|done]. cbn in Hx.
  destruct (used !! j) as [u|]; [|done]. cbn in Hx.
  injection Hx as <-. by destruct (negb _), u.
Qed.

(** When every fixation is used, the target is skipped. *)
Lemma select_one_all_used (fix_ : list e2.fixation) (st : e2.state) (i : nat)
    (target : Q * Q) :
  forallb id (e2.used st) = true ->
  e2.select_one hypot fix_ st i target = Ok st.
Proof. intros H. unfold e2.select_one. by rewrite H. Qed.

(** When an eligible fixation exists, the target is given an eligible
    fixation that no eligible fixation is nearer than, and that fixation
    becomes used. *)
Lemma select_one_eligible (fix_ : list e2.fixation) (st : e2.state) (i : nat)
    (target : Q * Q) (j : nat) :
  length (e2.used st) = length fix_ ->
  e2.eligible fix_ (e2.used st) j ->
  exists iFix f,
    e2.select_one hypot fix_ st i target =
      Ok {| e2.selected := <[i := Z.of_nat iFix]> (e2.selected st);
            e2.used := <[iFix := true]> (e2.used st) |} /\
    e2.eligible fix_ (e2.used st) iFix /\
    fix_ !! iFix = Some f /\
    forall j' f', e2.eligible fix_ (e2.used st) j' -> fix_ !! j' = Some f' ->
      (dist_to f target <= dist_to f' target)%Q.
Proof.
  intros Hlen (Hu & fj & Hfj & Hlong).
  unfold e2.select_one. rewrite (forallb_id_false _ j Hu).
  change (e2.set_inf _ (e2.set_inf _ _)) with (masked fix_ (e2.used st) target).
  destruct (argmin_spec (masked fix_ (e2.used st) target)) as (r & v & Hr & Hv & Hmin).
  { intros Hnil. apply (f_equal length) in Hnil.
    rewrite masked_length in Hnil by done.
    apply lookup_lt_Some in Hfj. cbn in Hnil. lia. }
  { apply masked_no_nan. }
  rewrite Hr. cbn [mbind res_bind].
  assert (Hj : masked fix_ (e2.used st) target !! j = Some (Fin (dist_to fj target))).
  { rewrite (masked_lookup _ _ _ _ fj false) by done. by rewrite Hlong. }
  assert (Hrlt : (r < length fix_)%nat).
  { apply lookup_lt_Some in Hv. by rewrite masked_length in Hv. }
  destruct (lookup_lt_is_Some_2 fix_ r Hrlt) as [fr Hfr].
  destruct (lookup_lt_is_Some_2 (e2.used st) r) as [ur Hur]; [lia|].
  rewrite (masked_lookup _ _ _ _ fr ur) in Hv by done.
  assert (Hvj : fle v (Fin (dist_to fj target))).
  { rewrite Forall_lookup in Hmin. by eapply Hmin. }
  destruct (e2.long_enough fr) eqn:Hlr; cbn [negb] in Hv;
    [|injection Hv as <-; done].
  destruct ur; [injection Hv as <-; done|]. injection Hv as <-.
  exists r, fr. split; [done|]. split; [by split; eauto|]. split; [done|].
  intros j' f' (Hu' & f'' & Hf'' & Hlong') Hf'.
  assert (f'' = f') as -> by congruence.
  assert (Hj' : masked fix_ (e2.used st) target !! j' = Some (Fin (dist_to f' target))).
  { rewrite (masked_lookup _ _ _ _ f' false) by done. by rewrite Hlong'. }
  rewrite Forall_lookup in Hmin. specialize (Hmin _ _ Hj').
  unfold fle in Hmin. cbn in Hmin.
  by apply negb_false_iff, Qle_bool_iff in Hmin.
Qed.

End step.

(** ** The selection when enough fixations are long enough *)

Lemma n_used_cons (u : bool) (used : list bool) :
  e2.n_used (u :: used) = ((if u then 1 else 0) + e2.n_used used)%nat.
Proof. by destruct u. Qed.

Lemma n_long_cons (f : e2.fixation) (fix_ : list e2.fixation) :
  e2.n_long (f :: fix_) =
  ((if e2.long_enough f then 1 else 0) + e2.n_long fix_)%nat.
Proof.
  unfold e2.n_long. rewrite filter_cons.
  destruct (e2.long_enough f); by simplify_option_eq.
Qed.

Lemma exists_eligible (fix_ : list e2.fixation) (used : list bool) :
  length used = length fix_ ->
  (forall j, used !! j = Some true ->
     exists f, fix_ !! j = Some f /\ e2.long_enough f = true) ->
  (e2.n_used used < e2.n_long fix_)%nat ->
  exists j, e2.eligible fix_ used j.
Proof.
  revert used. induction fix_ as [|f fix_ IH]; intros [|u used] Hlen Hlong Hn;
    try done.
  { cbn in Hn. lia. }
  rewrite n_used_cons, n_long_cons in Hn.
  destruct u.
  - destruct (Hlong 0%nat eq_refl) as (f' & [= <-] & Hf). rewrite Hf in Hn.
    destruct (IH used) as (j & Hu & fj & Hfj & Hlj).
    + by injection Hlen.
    + intros j Hj. apply (Hlong (S j) Hj).
    + lia.
    + exists (S j). split; [done|]. by exists fj.
  - destruct (e2.long_enough f) eqn:Hf.
    + exists 0%nat. split; [done|]. by exists f.
    + destruct (IH used) as (j & Hu & fj & Hfj & Hlj).
      * by injection Hlen.
      * intros j Hj. apply (Hlong (S j) Hj).
      * lia.
      * exists (S j). split; [done|]. by exists fj.
Qed.

Lemma n_used_insert (used : list bool) (j : nat) :
  used !! j = Some false ->
  e2.n_used (<[j := true]> used) = S (e2.n_used used).
Proof.
  revert j. induction used as [|u used IH]; intros [|j] Hj; try done.
  - by injection Hj as ->.
  - change (<[S j:=true]> (u :: used)) with (u :: <[j:=true]> used).
    rewrite !n_used_cons, IH by done. lia.
Qed.

Section selection.

Variable hypot : Q -> Q -> Q.
Variable fix_ : list e2.fixation.
Variable N : nat.

Lemma assigned_so_far_init :
  e2.assigned_so_far fix_ N
    {| e2.used := replicate (length fix_) false;
       e2.selected := replicate N (-999)%Z |} 0.
Proof.
  split; cbn [e2.used e2.selected].
  - apply length_replicate.
  - apply length_replicate.
  - intros j Hj. by apply lookup_replicate in Hj as [? _].
  - unfold e2.n_used. induction (length fix_) as [|n IH]; [done|].
    cbn [replicate]. rewrite filter_cons. by rewrite decide_False by done.
  - intros i' Hi'. lia.
  - intros i1 i2 z Hi1. lia.
  - intros i' Hi'. apply lookup_replicate_2. lia.
Qed.

Lemma select_one_assigned (st : e2.state) (i : nat) (target : Q * Q) :
  e2.assigned_so_far fix_ N st i ->
  (i < N)%nat -> (i < e2.n_long fix_)%nat ->
  exists st',
    e2.select_one hypot fix_ st i target = Ok st' /\
    e2.assigned_so_far fix_ N st' (S i).
Proof.
  intros [Hul Hsl Hlong Hn Hass Hinj Hrest] HiN Hi.
  destruct (exists_eligible fix_ (e2.used st)) as [j Hj]; [done|done|lia|].
  destruct (select_one_eligible hypot fix_ st i target j Hul Hj)
    as (iFix & f & -> & (HuF & fF & HfF & HlF) & _ & _).
  eexists. split; [reflexivity|].
  split; cbn [e2.used e2.selected].
  - by rewrite length_insert.
  - by rewrite length_insert.
  - intros j' Hj'. destruct (decide (j' = iFix)) as [->|Hne]; [eauto|].
    rewrite list_lookup_insert_ne in Hj' by done. eauto.
  - by rewrite n_used_insert, Hn.
  - intros i' Hi'. destruct (decide (i' = i)) as [->|Hne].
    + exists iFix. rewrite list_lookup_insert_eq by lia.
      split; [done|]. rewrite list_lookup_insert_eq; [done|].
      by apply lookup_lt_Some in HuF.
    + destruct (Hass i') as (j' & Hs & Hu'); [lia|].
      exists j'. rewrite list_lookup_insert_ne by done. split; [done|].
      destruct (decide (j' = iFix)) as [->|Hne']; [congruence|].
      by rewrite list_lookup_insert_ne.
  - assert (Hfresh : forall i', (i' < i)%nat ->
              e2.selected st !! i' <> Some (Z.of_nat iFix)).
    { intros i' Hi' Hs. destruct (Hass i' Hi') as (j' & Hs' & Hu').
      assert (j' = iFix) as -> by (apply Nat2Z.inj; congruence). congruence. }
    intros i1 i2 z Hi1 Hi2 H1 H2.
    destruct (decide (i1 = i)) as [->|Hne1], (decide (i2 = i)) as [->|Hne2];
      [done| | |].
    + rewrite list_lookup_insert_eq in H1 by lia. injection H1 as <-.
      rewrite list_lookup_insert_ne in H2 by done.
      by destruct (Hfresh i2); [lia|].
    + rewrite list_lookup_insert_eq in H2 by lia. injection H2 as <-.
      rewrite list_lookup_insert_ne in H1 by done.
      by destruct (Hfresh i1); [lia|].
    + rewrite list_lookup_insert_ne in H1, H2 by done.
      apply (Hinj i1 i2 z); [lia|lia|done|done].
  - intros i' Hi'. rewrite list_lookup_insert_ne by lia. apply Hrest. lia.
Qed.

Lemma select_from_assigned (targets : list (Z * (Q * Q))) (st : e2.state) (i : nat) :
  e2.assigned_so_far fix_ N st i ->
  (i + length targets <= N)%nat -> (i + length targets <= e2.n_long fix_)%nat ->
  exists st',
    e2.select_from hypot fix_ st i targets = Ok st' /\
    e2.assigned_so_far fix_ N st' (i + length targets).
Proof.
  revert st i. induction targets as [|[t c] targets IH]; intros st i Hinv HN Hl.
  - exists st. split; [done|]. by rewrite Nat.add_0_r.
  - cbn [length] in HN, Hl. cbn [e2.select_from].
    destruct (select_one_assigned st i c Hinv) as (st1 & -> & Hinv1); [lia|lia|].
    cbn [mbind res_bind].
    destruct (IH st1 (S i) Hinv1) as (st' & -> & Hinv'); [lia|lia|].
    exists st'. split; [done|].
    by replace (i + length ((t, c) :: targets))%nat
         with (S i + length targets)%nat by (cbn; lia).
Qed.

Lemma select_from_app (targets1 targets2 : list (Z * (Q * Q)))
    (st : e2.state) (i : nat) :
  e2.select_from hypot fix_ st i (targets1 ++ targets2) =
  st' ← e2.select_from hypot fix_ st i targets1;
  e2.select_from hypot fix_ st' (i + length targets1) targets2.
Proof.
  revert st i. induction targets1 as [|[t c] targets1 IH]; intros st i.
  - cbn. by rewrite Nat.add_0_r.
  - cbn [app e2.select_from length].
    destruct (e2.select_one hypot fix_ st i c) as [st1|e]; [|done].
    cbn [mbind res_bind]. rewrite IH.
    by replace (S i + length targets1)%nat with (i + S (length targets1))%nat by lia.
Qed.

(** Once every fixation is used, the targets that remain are skipped. *)
Lemma select_from_all_used (targets : list (Z * (Q * Q))) (st : e2.state) (i : nat) :
  forallb id (e2.used st) = true ->
  e2.select_from hypot fix_ st i targets = Ok st.
Proof.
  intros H. revert i. induction targets as [|[t c] targets IH]; intros i; [done|].
  cbn [e2.select_from]. rewrite select_one_all_used by done. apply IH.
Qed.

End selection.

Lemma n_used_all (used : list bool) :
  e2.n_used used = length used -> forallb id used = true.
Proof.
  induction used as [|u used IH]; [done|]. rewrite n_used_cons. cbn [length].
  assert (e2.n_used used <= length used)%nat.
  { unfold e2.n_used. apply length_filter. }
  destruct u; cbn; [intros ?; apply IH; lia | lia].
Qed.

Lemma n_long_all (fix_ : list e2.fixation) :
  Forall (fun f => e2.long_enough f = true) fix_ ->
  e2.n_long fix_ = length fix_.
Proof.
  induction 1 as [|f fix_ Hf _ IH]; [done|].
  rewrite n_long_cons, Hf, IH. done.
Qed.

(** X16 (enough fixations): when at least as many fixations are long enough
    as there are targets, the selection does not raise, every target gets a
    fixation that is long enough, and no two targets get the same one. *)
Theorem select_fixations_enough (hypot : Q -> Q -> Q)
    (fix_ : list e2.fixation) (targets : list (Z * (Q * Q))) :
  (length targets <= e2.n_long fix_)%nat ->
  exists sel,
    e2.select_fixations hypot fix_ targets = Ok sel /\
    length sel = length targets /\
    (forall i, (i < length targets)%nat ->
       exists j f, sel !! i = Some (Z.of_nat j) /\ fix_ !! j = Some f /\
                   e2.long_enough f = true) /\
    (forall i1 i2 z, sel !! i1 = Some z -> sel !! i2 = Some z -> i1 = i2).
Proof.
  intros Hn. unfold e2.select_fixations.
  destruct (select_from_assigned hypot fix_ (length targets) targets _ 0
              (assigned_so_far_init fix_ (length targets)))
    as (st & -> & [Hul Hsl Hlong Hnu Hass Hinj _]); [done|done|].
  cbn [mbind res_bind]. exists (e2.selected st).
  split; [done|]. split; [done|]. split.
  - intros i Hi. destruct (Hass i Hi) as (j & Hs & Hu).
    destruct (Hlong j Hu) as (f & Hf & Hl). by exists j, f.
  - intros i1 i2 z H1 H2.
    apply (Hinj i1 i2 z); [| |done|done].
    + apply lookup_lt_Some in H1. cbn in *. lia.
    + apply lookup_lt_Some in H2. cbn in *. lia.
Qed.

Lemma select_fixations_enough_witness :
  exists sel,
    e2.select_fixations Example.hypot Example.fixations Example.fixation_targets
      = Ok sel /\
    length sel = length Example.fixation_targets /\
    (forall i, (i < length Example.fixation_targets)%nat ->
       exists j f, sel !! i = Some (Z.of_nat j) /\
                   Example.fixations !! j = Some f /\
                   e2.long_enough f = true) /\
    (forall i1 i2 z, sel !! i1 = Some z -> sel !! i2 = Some z -> i1 = i2).
Proof.
  apply (select_fixations_enough Example.hypot Example.fixations
           Example.fixation_targets).
  vm_compute. lia.
Defined.

(** The example of the specification: fixations of 200, 100 and 300 ms at
    distances 5, 1 and 1 of the target; the target gets the third, not the
    nearer second one, which is too short. *)
Lemma select_fixations_example (hypot : Q -> Q -> Q) :
  (hypot (5 - 0) (0 - 0) == 5)%Q ->
  (hypot (0 - 0) (1 - 0) == 1)%Q ->
  e2.select_fixations hypot
    [{| e2.xpos := 5; e2.ypos := 0; e2.dur := 200;
        e2.startT := 0; e2.endT := 200 |};
     {| e2.xpos := 1; e2.ypos := 0; e2.dur := 100;
        e2.startT := 300; e2.endT := 400 |};
     {| e2.xpos := 0; e2.ypos := 1; e2.dur := 300;
        e2.startT := 500; e2.endT := 800 |}]
    [(1%Z, (0, 0)%Q)]
  = Ok [2%Z].
Proof.
  intros H5 H1.
  assert (E : Qle_bool (hypot (5 - 0)%Q (0 - 0)%Q) (hypot (0 - 0)%Q (1 - 0)%Q) = false).
  { apply not_true_is_false. rewrite Qle_bool_iff, H5, H1.
    unfold Qle. simpl. lia. }
  unfold e2.select_fixations, e2.select_from, e2.select_one.
  cbn [forallb e2.used e2.selected replicate length id andb e2.distances map
       e2.set_inf zip_with e2.dur e2.xpos e2.ypos fst snd].
  change (Qle_bool e2.minDur 200) with true.
  change (Qle_bool e2.minDur 100) with false.
  change (Qle_bool e2.minDur 300) with true.
  cbn [negb e2.argmin e2.argmin_from isnan orb fltb mbind res_bind].
  rewrite E. reflexivity.
Qed.

(** X18 (fewer fixations than targets): when no fixation is too short and
    there are no more fixations than targets, the selection does not raise,
    the first targets, as many as there are fixations, get fixations that
    differ, and the targets that remain get none. *)
Theorem select_fixations_all_long (hypot : Q -> Q -> Q)
    (fix_ : list e2.fixation) (targets : list (Z * (Q * Q))) :
  Forall (fun f => e2.long_enough f = true) fix_ ->
  (length fix_ <= length targets)%nat ->
  exists sel,
    e2.select_fixations hypot fix_ targets = Ok sel /\
    length sel = length targets /\
    (forall i, (i < length fix_)%nat ->
       exists j, sel !! i = Some (Z.of_nat j) /\ (j < length fix_)%nat) /\
    (forall i1 i2 z, z <> (-999)%Z ->
       sel !! i1 = Some z -> sel !! i2 = Some z -> i1 = i2) /\
    (forall i, (length fix_ <= i < length targets)%nat ->
       sel !! i = Some (-999)%Z).
Proof.
  intros Hall Hlen. unfold e2.select_fixations.
  set (st0 := {| e2.used := _; e2.selected := _ |}).
  assert (e2.select_from hypot fix_ st0 0 targets =
          e2.select_from hypot fix_ st0 0
            (take (length fix_) targets ++ drop (length fix_) targets)) as ->
    by (by rewrite take_drop).
  rewrite select_from_app. subst st0.
  assert (Htake : length (take (length fix_) targets) = length fix_)
    by (rewrite length_take; lia).
  destruct (select_from_assigned hypot fix_ (length targets)
              (take (length fix_) targets) _ 0
              (assigned_so_far_init fix_ (length targets)))
    as (st & -> & [Hul Hsl Hlong Hnu Hass Hinj Hrest]).
  { rewrite Htake. lia. }
  { rewrite Htake, n_long_all by done. lia. }
  cbn [mbind res_bind]. rewrite Htake in *. cbn [Nat.add] in *.
  rewrite select_from_all_used by (apply n_used_all; lia).
  cbn [mbind res_bind]. exists (e2.selected st).
  split; [done|]. split; [done|]. split; [|split].
  - intros i Hi. destruct (Hass i Hi) as (j & Hs & Hu).
    exists j. split; [done|]. apply lookup_lt_Some in Hu. lia.
  - intros i1 i2 z Hz H1 H2.
    assert (forall i, e2.selected st !! i = Some z -> (i < length fix_)%nat) as Hlt.
    { intros i Hi. destruct (Nat.lt_ge_cases i (length fix_)) as [?|Hge]; [done|].
      apply lookup_lt_Some in Hi as Hi'.
      rewrite Hrest in Hi by lia. congruence. }
    apply (Hinj i1 i2 z); auto.
  - intros i Hi. by apply Hrest.
Qed.

Lemma select_fixations_all_long_witness :
  exists sel,
    e2.select_fixations Example.hypot (take 1 Example.fixations)
      [(1%Z, (0, 0)%Q); (2%Z, (10, 0)%Q)] = Ok sel /\
    length sel = 2%nat /\
    (forall i, (i < 1)%nat ->
       exists j, sel !! i = Some (Z.of_nat j) /\ (j < 1)%nat) /\
    (forall i1 i2 z, z <> (-999)%Z ->
       sel !! i1 = Some z -> sel !! i2 = Some z -> i1 = i2) /\
    (forall i, (1 <= i < 2)%nat -> sel !! i = Some (-999)%Z).
Proof.
  apply (select_fixations_all_long Example.hypot (take 1 Example.fixations)
           [(1%Z, (0, 0)%Q); (2%Z, (10, 0)%Q)]).
  - repeat constructor.
  - simpl. lia.
Defined.

(** ** The selection when no fixation is eligible *)

Lemma argmin_from_all_inf (l : list float) (ibest i : nat) :
  Forall (fun x => x = PInf) l -> e2.argmin_from PInf ibest i l = ibest.
Proof.
  revert i. induction l as [|x l IH]; intros i Hl; [done|].
  apply Forall_cons in Hl as [-> Hl]. cbn. by apply IH.
Qed.

(** X19 (no eligible fixation): when some fixation is not used but none is
    eligible, every distance is infinite, [np.argmin] is 0, and the target
    is given fixation 0, which is used already or too short. *)
Lemma select_one_no_eligible (hypot : Q -> Q -> Q) (fix_ : list e2.fixation)
    (st : e2.state) (i : nat) (target : Q * Q) :
  length (e2.used st) = length fix_ ->
  forallb id (e2.used st) = false ->
  (forall j, ~ e2.eligible fix_ (e2.used st) j) ->
  e2.select_one hypot fix_ st i target =
    Ok {| e2.selected := <[i := 0%Z]> (e2.selected st);
          e2.used := <[0%nat := true]> (e2.used st) |}.
Proof.
  intros Hlen Hnot Hnone. unfold e2.select_one. rewrite Hnot.
  change (e2.set_inf _ (e2.set_inf _ _)) with (e2.masked hypot fix_ (e2.used st) target).
  assert (Hinf : Forall (fun x => x = PInf)
                        (e2.masked hypot fix_ (e2.used st) target)).
  { apply Forall_lookup. intros j x Hx.
    apply lookup_lt_Some in Hx as Hj. rewrite masked_length in Hj by done.
    destruct (lookup_lt_is_Some_2 fix_ j Hj) as [f Hf].
    destruct (lookup_lt_is_Some_2 (e2.used st) j) as [u Hu]; [lia|].
    rewrite (masked_lookup hypot _ _ _ _ f u) in Hx by done.
    destruct (e2.long_enough f) eqn:Hl; cbn [negb] in Hx; [|congruence].
    destruct u; [congruence|].
    destruct (Hnone j). split; [done|]. by exists f. }
  destruct (e2.masked hypot fix_ (e2.used st) target) as [|x l] eqn:E.
  - apply (f_equal length) in E. rewrite masked_length in E by done.
    destruct (e2.used st); [done|]. cbn in *. lia.
  - apply Forall_cons in Hinf as [-> Hinf]. cbn [e2.argmin mbind res_bind].
    by rewrite argmin_from_all_inf.
Qed.

Lemma select_one_no_eligible_witness :
  e2.select_one Example.hypot (take 1 (drop 1 Example.fixations))
    {| e2.used := [false]; e2.selected := [(-999)%Z] |} 0 (0, 0)%Q =
  Ok {| e2.selected := [0%Z]; e2.used := [true] |}.
Proof.
  apply (select_one_no_eligible Example.hypot (take 1 (drop 1 Example.fixations))
           {| e2.used := [false]; e2.selected := [(-999)%Z] |} 0 (0, 0)%Q).
  - reflexivity.
  - reflexivity.
  - intros [|j] (Hu & f & Hf & Hl); [|discriminate Hu].
    simpl in Hf. injection Hf as <-. vm_compute in Hl. discriminate Hl.
Defined.

(** ** The nearest fixation that no earlier target has *)

Section greedy.

Variable hypot : Q -> Q -> Q.
Variable fix_ : list e2.fixation.
Variable N : nat.

Lemma nearest_unclaimed_ext (sel sel' : list Z) (i : nat) (target : Q * Q) :
  (forall i', (i' <= i)%nat -> sel' !! i' = sel !! i') ->
  e2.nearest_unclaimed hypot fix_ sel i target ->
  e2.nearest_unclaimed hypot fix_ sel' i target.
Proof.
  intros Hext (j & f & Hs & Hf & Hl & Hmin).
  exists j, f. rewrite Hext by lia. repeat split; try done.
  intros j' f' Hf' Hl' Hfree. apply (Hmin j' f' Hf' Hl').
  intros i' Hi'. rewrite <- Hext by lia. by apply Hfree.
Qed.

Lemma select_one_greedy (st : e2.state) (i : nat) (target : Q * Q) :
  e2.assigned_so_far fix_ N st i ->
  (forall j, e2.used st !! j = Some true ->
     exists i', (i' < i)%nat /\ e2.selected st !! i' = Some (Z.of_nat j)) ->
  (i < N)%nat -> (i < e2.n_long fix_)%nat ->
  exists st',
    e2.select_one hypot fix_ st i target = Ok st' /\
    e2.assigned_so_far fix_ N st' (S i) /\
    (forall j, e2.used st' !! j = Some true ->
       exists i', (i' < S i)%nat /\ e2.selected st' !! i' = Some (Z.of_nat j)) /\
    (forall i', (i' < i)%nat -> e2.selected st' !! i' = e2.selected st !! i') /\
    e2.nearest_unclaimed hypot fix_ (e2.selected st') i target.
Proof.
  intros Hinv Hback HiN Hi.
  destruct (select_one_assigned hypot fix_ N st i target Hinv HiN Hi)
    as (st' & Hst' & Hinv').
  destruct Hinv as [Hul Hsl Hlong Hn Hass Hinj Hrest].
  destruct (exists_eligible fix_ (e2.used st)) as [j0 Hj0]; [done|done|lia|].
  destruct (select_one_eligible hypot fix_ st i target j0 Hul Hj0)
    as (iFix & f & Heq & (HuF & fF & HfF & HlF) & Hf & Hmin).
  assert (fF = f) as -> by congruence.
  rewrite Heq in Hst'. injection Hst' as <-.
  eexists. split; [exact Heq|]. split; [exact Hinv'|].
  cbn [e2.used e2.selected]. split; [|split].
  - intros j Hj. destruct (decide (j = iFix)) as [->|Hne].
    + exists i. split; [lia|]. by rewrite list_lookup_insert_eq by lia.
    + rewrite list_lookup_insert_ne in Hj by done.
      destruct (Hback j Hj) as (i' & Hi' & Hs).
      exists i'. split; [lia|]. by rewrite list_lookup_insert_ne by lia.
  - intros i' Hi'. by rewrite list_lookup_insert_ne by lia.
  - exists iFix, f. rewrite list_lookup_insert_eq by lia.
    split; [done|]. split; [done|]. split; [done|].
    intros j' f' Hf' Hl' Hfree. apply (Hmin j' f'); [|done].
    split; [|by exists f'].
    assert (Hj'lt : (j' < length (e2.used st))%nat).
    { apply lookup_lt_Some in Hf'. lia. }
    destruct (lookup_lt_is_Some_2 _ _ Hj'lt) as [[|] Hu]; [|done].
    destruct (Hback j' Hu) as (i' & Hi' & Hs).
    destruct (Hfree i' Hi'). by rewrite list_lookup_insert_ne by lia.
Qed.

Lemma select_from_greedy (rest done_ : list (Z * (Q * Q))) (st : e2.state) :
  e2.assigned_so_far fix_ N st (length done_) ->
  (forall j, e2.used st !! j = Some true ->
     exists i', (i' < length done_)%nat /\
                e2.selected st !! i' = Some (Z.of_nat j)) ->
  (forall i' t, done_ !! i' = Some t ->
     e2.nearest_unclaimed hypot fix_ (e2.selected st) i' t.2) ->
  (length done_ + length rest <= N)%nat ->
  (length done_ + length rest <= e2.n_long fix_)%nat ->
  exists st',
    e2.select_from hypot fix_ st (length done_) rest = Ok st' /\
    e2.assigned_so_far fix_ N st' (length done_ + length rest) /\
    (forall i' t, (done_ ++ rest) !! i' = Some t ->
       e2.nearest_unclaimed hypot fix_ (e2.selected st') i' t.2).
Proof.
  revert done_ st. induction rest as [|[t c] rest IH]; intros done_ st Hinv Hback Hnear HN Hl.
  - exists st. rewrite Nat.add_0_r, app_nil_r. done.
  - cbn [length] in HN, Hl. cbn [e2.select_from].
    destruct (select_one_greedy st (length done_) c Hinv Hback)
      as (st1 & -> & Hinv1 & Hback1 & Hsame & Hnear1); [lia|lia|].
    cbn [mbind res_bind].
    destruct (IH (done_ ++ [(t, c)]) st1) as (st' & Hst' & Hinv' & Hnear').
    + rewrite length_app. cbn. by rewrite Nat.add_1_r.
    + rewrite length_app. cbn. rewrite Nat.add_1_r. exact Hback1.
    + intros i' t' Ht'. destruct (decide (i' < length done_)%nat) as [Hlt|Hge].
      * rewrite lookup_app_l in Ht' by done.
        apply (nearest_unclaimed_ext (e2.selected st)); [|by apply Hnear].
        intros i'' Hi''. apply Hsame. lia.
      * apply lookup_lt_Some in Ht' as Hlt'. rewrite length_app in Hlt'. cbn in Hlt'.
        assert (i' = length done_) as -> by lia.
        rewrite lookup_app_r, Nat.sub_diag in Ht' by lia. injection Ht' as <-.
        exact Hnear1.
    + rewrite length_app. cbn. lia.
    + rewrite length_app. cbn. lia.
    + rewrite length_app in Hst', Hinv'. cbn in Hst', Hinv'.
      rewrite Nat.add_1_r in Hst'.
      exists st'. split; [exact Hst'|]. split.
      * by replace (length done_ + length ((t, c) :: rest))%nat
             with (length done_ + 1 + length rest)%nat by (cbn; lia).
      * by rewrite <- app_assoc in Hnear'.
Qed.

End greedy.

(** X17 (nearest unclaimed fixation): when at least as many fixations are
    long enough as there are targets, every target gets, among the
    fixations that are long enough and that no earlier target got, one that
    is nearest to it. *)
Theorem select_fixations_greedy (hypot : Q -> Q -> Q)
    (fix_ : list e2.fixation) (targets : list (Z * (Q * Q))) :
  (length targets <= e2.n_long fix_)%nat ->
  exists sel,
    e2.select_fixations hypot fix_ targets = Ok sel /\
    forall i t, targets !! i = Some t ->
      e2.nearest_unclaimed hypot fix_ sel i t.2.
Proof.
  intros Hn. unfold e2.select_fixations.
  destruct (select_from_greedy hypot fix_ (length targets) targets [] _
              (assigned_so_far_init fix_ (length targets)))
    as (st & Hst & _ & Hnear).
  - intros j Hj. cbn in Hj. by apply lookup_replicate in Hj as [? _].
  - intros i' t Ht. done.
  - done.
  - done.
  - cbn [length] in Hst. rewrite Hst. cbn [mbind res_bind].
    exists (e2.selected st). split; [done|]. exact Hnear.
Qed.

Lemma select_fixations_greedy_witness :
  exists sel,
    e2.select_fixations Example.hypot Example.fixations Example.fixation_targets
      = Ok sel /\
    forall i t, Example.fixation_targets !! i = Some t ->
      e2.nearest_unclaimed Example.hypot Example.fixations sel i t.2.
Proof.
  apply (select_fixations_greedy Example.hypot Example.fixations
           Example.fixation_targets).
  vm_compute. lia.
Defined.

(** ** The shape of the selection, whatever the fixations *)

Lemma argmin_from_lt (l : list float) (best : float) (ibest i : nat) :
  (ibest < i)%nat -> (e2.argmin_from best ibest i l < i + length l)%nat.
Proof.
  revert best ibest i. induction l as [|x l IH]; intros best ibest i Hi; cbn.
  - lia.
  - destruct (isnan best); [lia|].
    destruct (isnan x || fltb x best).
    + specialize (IH x i (S i)). lia.
    + specialize (IH best ibest (S i)). lia.
Qed.

Lemma argmin_lt (l : list float) (r : nat) :
  e2.argmin l = Ok r -> (r < length l)%nat.
Proof.
  destruct l as [|x l]; [done|]. cbn. intros [= <-].
  pose proof (argmin_from_lt l x 0 1). lia.
Qed.

Lemma argmin_nonempty (l : list float) :
  l <> [] -> exists r, e2.argmin l = Ok r.
Proof. destruct l; [done|]. intros _. by eexists. Qed.

Lemma n_used_insert_le (used : list bool) (j : nat) :
  (e2.n_used (<[j := true]> used) <= S (e2.n_used used))%nat.
Proof.
  revert j. induction used as [|u used IH]; intros [|j]; cbn [list_insert].
  - unfold e2.n_used. cbn. lia.
  - unfold e2.n_used. cbn. lia.
  - change (<[0%nat:=true]> (u :: used)) with (true :: used).
    rewrite !n_used_cons. destruct u; cbn; lia.
  - change (<[S j:=true]> (u :: used)) with (u :: <[j:=true]> used).
    rewrite !n_used_cons. specialize (IH j). lia.
Qed.

Lemma n_used_forallb (used : list bool) :
  forallb id used = true -> e2.n_used used = length used.
Proof.
  induction used as [|u used IH]; [done|]. rewrite n_used_cons. cbn.
  destruct u; cbn; [|done]. intros H. rewrite IH by done. done.
Qed.

Section shape.

Variable hypot : Q -> Q -> Q.
Variable fix_ : list e2.fixation.
Variable N : nat.

Lemma prefix_assigned_init :
  e2.prefix_assigned fix_ N
    {| e2.used := replicate (length fix_) false;
       e2.selected := replicate N (-999)%Z |} 0 0.
Proof.
  split; cbn [e2.used e2.selected].
  - apply length_replicate.
  - apply length_replicate.
  - done.
  - intros i' Hi'. lia.
  - intros i' Hi'. apply lookup_replicate_2. lia.
  - lia.
  - unfold e2.n_used. induction (length fix_) as [|n IH]; [done|].
    cbn [replicate]. rewrite filter_cons. by rewrite decide_False by done.
Qed.

Lemma select_one_prefix (st : e2.state) (i k : nat) (target : Q * Q) :
  e2.prefix_assigned fix_ N st i k -> (i < N)%nat ->
  exists st' k',
    e2.select_one hypot fix_ st i target = Ok st' /\
    e2.prefix_assigned fix_ N st' (S i) k'.
Proof.
  intros [Hul Hsl Hle Hass Hrest Hall Hn] HiN.
  unfold e2.select_one.
  destruct (forallb id (e2.used st)) eqn:Hu.
  - exists st, k. split; [done|]. split; try done; try lia.
  - assert (k = i) as ->.
    { destruct (decide (k < i)%nat) as [Hlt|]; [|lia]. specialize (Hall Hlt). congruence. }
    change (e2.set_inf _ (e2.set_inf _ _)) with (e2.masked hypot fix_ (e2.used st) target).
    destruct (argmin_nonempty (e2.masked hypot fix_ (e2.used st) target)) as [r Hr].
    { intros E. apply (f_equal length) in E. rewrite masked_length in E by done.
      destruct (e2.used st); [done|]. cbn in *. lia. }
    rewrite Hr. cbn [mbind res_bind].
    apply argmin_lt in Hr. rewrite masked_length in Hr by done.
    eexists _, (S i). split; [reflexivity|].
    split; cbn [e2.used e2.selected].
    + by rewrite length_insert.
    + by rewrite length_insert.
    + done.
    + intros i' Hi'. destruct (decide (i' = i)) as [->|Hne].
      * exists r. by rewrite list_lookup_insert_eq by lia.
      * rewrite list_lookup_insert_ne by done. apply Hass. lia.
    + intros i' Hi'. rewrite list_lookup_insert_ne by lia. apply Hrest. lia.
    + lia.
    + pose proof (n_used_insert_le (e2.used st) r). lia.
Qed.

Lemma select_from_prefix (targets : list (Z * (Q * Q))) (st : e2.state) (i k : nat) :
  e2.prefix_assigned fix_ N st i k -> (i + length targets <= N)%nat ->
  exists st' k',
    e2.select_from hypot fix_ st i targets = Ok st' /\
    e2.prefix_assigned fix_ N st' (i + length targets) k'.
Proof.
  revert st i k. induction targets as [|[t c] targets IH]; intros st i k Hinv HN.
  - exists st, k. split; [done|]. by rewrite Nat.add_0_r.
  - cbn [length] in HN. cbn [e2.select_from].
    destruct (select_one_prefix st i k c Hinv) as (st1 & k1 & -> & Hinv1); [lia|].
    cbn [mbind res_bind].
    destruct (IH st1 (S i) k1 Hinv1) as (st' & k' & -> & Hinv'); [lia|].
    exists st', k'. split; [done|].
    by replace (i + length ((t, c) :: targets))%nat
         with (S i + length targets)%nat by (cbn; lia).
Qed.

End shape.

Lemma rows_prefix (fix_ : list e2.fixation) (targets : list (Z * (Q * Q)))
    (sel : list Z) (k : nat) :
  length sel = length targets ->
  (forall i, (i < k)%nat ->
     exists j, sel !! i = Some (Z.of_nat j) /\ (j < length fix_)%nat) ->
  (forall i, (k <= i < length targets)%nat -> sel !! i = Some (-999)%Z) ->
  exists rs,
    e2.rows fix_ targets sel = Ok rs /\ length rs = Nat.min k (length targets) /\
    forall i t j f, targets !! i = Some t -> sel !! i = Some (Z.of_nat j) ->
      fix_ !! j = Some f -> rs !! i = Some (t.1, e2.startT f, e2.endT f).
Proof.
  unfold e2.rows.
  revert sel k. induction targets as [|t targets IH]; intros [|z sel] k Hlen Hass Hrest;
    try done.
  - exists []. cbn. split; [done|]. split; [lia|]. done.
  - injection Hlen as Hlen. cbn [zip zip_with]. rewrite filter_cons.
    destruct k as [|k].
    + assert (z = (-999)%Z) as ->.
      { specialize (Hrest 0%nat). cbn in Hrest. injection Hrest as ->; [done|lia]. }
      rewrite decide_False by (cbn; intros H; by apply H).
      destruct (IH sel 0%nat Hlen) as (rs & Hrs & Hl & Hlook).
      { intros i Hi. lia. }
      { intros i Hi. apply (Hrest (S i)). cbn. lia. }
      exists rs. split; [done|]. split; [by destruct targets|].
      intros [|i] t' j f Ht Hs Hf.
      * cbn in Hs. injection Hs as Hs. lia.
      * cbn in Ht, Hs. specialize (Hlook i t' j f Ht Hs Hf).
        assert (rs = []) as -> by (destruct rs; [done|]; destruct targets; cbn in Hl; lia).
        done.
    + destruct (Hass 0%nat) as (j & Hj & Hjlt); [lia|]. cbn in Hj. injection Hj as ->.
      rewrite decide_True by (cbn; lia).
      destruct (lookup_lt_is_Some_2 fix_ j Hjlt) as [f Hf].
      destruct (IH sel k Hlen) as (rs & Hrs & Hl & Hlook).
      { intros i Hi. apply (Hass (S i)). lia. }
      { intros i Hi. apply (Hrest (S i)). cbn. lia. }
      cbn [mapM]. rewrite (py_getitem_nonneg fix_ (Z.of_nat j) f) by (rewrite ?Nat2Z.id; done || lia).
      cbn [mbind res_bind]. rewrite Hrs. cbn [mbind res_bind mret res_ret].
      eexists. split; [reflexivity|]. split; [cbn; lia|].
      intros [|i] t' j' f' Ht Hs Hf'.
      * cbn in Ht, Hs. injection Ht as <-. injection Hs as Hs.
        apply Nat2Z.inj in Hs as <-. cbn. congruence.
      * cbn in Ht, Hs. cbn. by eapply Hlook.
Qed.

(** X20 (the shape of the selection): the selection never raises.  The
    targets that get a fixation are the first [k] in order, [k] being at
    least the smaller of the number of targets and the number of fixations,
    each with the index of an existing fixation, and the other targets keep
    [-999].  [analysisInterval.tsv] then gets [k] rows, one per target with
    a fixation, holding the start and the end of that fixation, and the
    indexing raises nothing. *)
Theorem select_fixations_shape (hypot : Q -> Q -> Q) (fix_ : list e2.fixation)
    (targets : list (Z * (Q * Q))) :
  exists sel k rs,
    e2.select_fixations hypot fix_ targets = Ok sel /\
    length sel = length targets /\
    (Nat.min (length targets) (length fix_) <= k <= length targets)%nat /\
    (forall i, (i < k)%nat ->
       exists j, sel !! i = Some (Z.of_nat j) /\ (j < length fix_)%nat) /\
    (forall i, (k <= i < length targets)%nat -> sel !! i = Some (-999)%Z) /\
    e2.rows fix_ targets sel = Ok rs /\
    length rs = k /\
    (forall i t j f, targets !! i = Some t -> sel !! i = Some (Z.of_nat j) ->
       fix_ !! j = Some f -> rs !! i = Some (t.1, e2.startT f, e2.endT f)).
Proof.
  unfold e2.select_fixations.
  destruct (select_from_prefix hypot fix_ (length targets) targets _ 0 0
              (prefix_assigned_init fix_ (length targets)))
    as (st & k & -> & [Hul Hsl Hle Hass Hrest Hall Hn]); [done|].
  cbn [mbind res_bind Nat.add] in *.
  destruct (rows_prefix fix_ targets (e2.selected st) k Hsl Hass Hrest)
    as (rs & Hrs & Hl & Hlook).
  exists (e2.selected st), k, rs.
  split; [done|]. split; [done|]. split; [|split; [done|]; split; [done|]].
  - split; [|done].
    destruct (decide (k < length targets)%nat) as [Hlt|]; [|lia].
    specialize (Hall Hlt). apply n_used_forallb in Hall. lia.
  - split; [done|]. split; [lia|done].
Qed.

(** ** Fixation selection *)

(** C1 (the code at the failing input): one fixation of 100 ms, below the
    150 ms threshold, and one target.  Not every fixation is used, so the
    loop body goes on; the only distance is infinite; [np.argmin] of it is
    0; the target is given fixation 0, the too short one, instead of being
    left unassigned. *)
Theorem too_short_fixation_selected (hypot : Q -> Q -> Q) :
  e2.select_fixations hypot
    [{| e2.xpos := 3; e2.ypos := 4; e2.dur := 100;
        e2.startT := 0; e2.endT := 100 |}]
    [(1%Z, (0, 0)%Q)]
  = Ok [0%Z].
Proof. reflexivity. Qed.

(** C4 (the code at the failing input): a fixation of 200 ms and one of
    100 ms, and two targets.  The first target takes fixation 0; for the
    second, fixation 0 is used and fixation 1 too short, both distances are
    infinite, [np.argmin] is 0 again: the two targets share fixation 0 and
    none is left unassigned, although one eligible fixation existed for two
    targets. *)
Theorem two_targets_share_fixation (hypot : Q -> Q -> Q) :
  e2.select_fixations hypot
    [{| e2.xpos := 0; e2.ypos := 0; e2.dur := 200;
        e2.startT := 0; e2.endT := 200 |};
     {| e2.xpos := 10; e2.ypos := 0; e2.dur := 100;
        e2.startT := 300; e2.endT := 400 |}]
    [(1%Z, (0, 0)%Q); (2%Z, (10, 0)%Q)]
  = Ok [0%Z; 0%Z].
Proof. reflexivity. Qed.
